(** * GeometryControls (geometrycontrols.js): a shallow embedding

    The file follows the source in these parts:
    - [Js]: completions (normal return / throw) and the state-and-exception
      monad every modelled function lives in;
    - [Aop]: the Ajaxpect advice engine ([aop.addBefore], [aop.addAfter],
      [aop.addAround], [aop.process_], [aop.attach_]);
    - [Toggle]: the button registry, [toggleButtons] and the click listener
      installed by [createButton];
    - [Persist]: [saveData] and the payload it posts;
    - [Dispatch]: [debug] and [createGeometry_];
    - [AutoSave]: [addAutoSaveAspect], where advice rewires members of [me]
      and of [geomInfo] while a call is running;
    - [Controls], [Serialize], [Position], [Construct]: [addControl],
      [serialize], [getAbsolutePosition], and the constructor's options with
      [runInitFunctions_] and [getDefaultPosition].
    Each part is followed by its properties and by a concrete instance on
    which the definitions are run. *)

From Stdlib Require Import String Ascii ZArith List Lia.
From stdpp Require Import base option list strings pretty gmap fin_maps.

Local Open Scope string_scope.

(* ===================================================================== *)
(** ** JavaScript completions and the effect monad *)
(* ===================================================================== *)

Module Js.

(** What a [catch (e)] block of this file reads from a thrown value: its
    string conversion and the (engine specific) [lineNumber] and [fileName]
    properties, already converted to strings. *)
Record js_error : Type := mk_error {
  err_text : string;
  err_lineNumber : string;
  err_fileName : string
}.

(** The error the engine raises when a property of [undefined] is read or a
    non-function is called. *)
Definition TypeError (what : string) : js_error :=
  {| err_text := "TypeError: " ++ what;
     err_lineNumber := "undefined";
     err_fileName := "undefined" |}.

Inductive completion (A : Type) : Type :=
| Normal (a : A)
| Throw (e : js_error).
Arguments Normal {A} a.
Arguments Throw {A} e.

(** A computation over a world [W]: the world is threaded through and
    survives a throw (mutations made before the throw stay). *)
Definition js (W A : Type) : Type := W -> W * completion A.

Definition ret {W A} (a : A) : js W A := fun w => (w, Normal a).

Definition throw {W A} (e : js_error) : js W A := fun w => (w, Throw e).

Definition bind {W A B} (m : js W A) (k : A -> js W B) : js W B :=
  fun w => match m w with
           | (w', Normal a) => k a w'
           | (w', Throw e) => (w', Throw e)
           end.

(** [try { m } catch (e) { h e }] *)
Definition try_catch {W A} (m : js W A) (h : js_error -> js W A) : js W A :=
  fun w => match m w with
           | (w', Normal a) => (w', Normal a)
           | (w', Throw e) => h e w'
           end.

Definition modify {W} (f : W -> W) : js W unit := fun w => (f w, Normal tt).

End Js.

Import Js.

Declare Scope js_scope.
Delimit Scope js_scope with js.
Notation "x <- m ;; k" := (bind m (fun x => k))
  (at level 100, m at next level, right associativity) : js_scope.
Notation "m ;;; k" := (bind m (fun _ => k))
  (at level 100, right associativity) : js_scope.
Local Open Scope js_scope.

Lemma bind_ret_l {W A B} (a : A) (k : A -> js W B) (w : W) :
  bind (ret a) k w = k a w.
Proof. reflexivity. Qed.

Lemma bind_normal {W A B} (m : js W A) (k : A -> js W B) w w' a :
  m w = (w', Normal a) -> bind m k w = k a w'.
Proof. intros H. unfold bind. now rewrite H. Qed.

Lemma bind_throw {W A B} (m : js W A) (k : A -> js W B) w w' e :
  m w = (w', Throw e) -> bind m k w = (w', Throw e).
Proof. intros H. unfold bind. now rewrite H. Qed.

Lemma bind_assoc {W A B C} (m : js W A) (k : A -> js W B) (h : B -> js W C) w :
  bind (bind m k) h w = bind m (fun a => bind (k a) h) w.
Proof. unfold bind. destruct (m w) as [w' [a|e]]; reflexivity. Qed.

(* ===================================================================== *)
(** ** Ajaxpect 0.9.0 (lines 473-519) *)
(* ===================================================================== *)

Module Aop.
Section Engine.

(** [W]: the state the functions act on; [R]: receivers ([this] values);
    [V]: argument and result values. *)
Context {W R V : Type}.

(** A function value: called with a receiver and an [arguments] list. *)
Abbreviation jsfun := (R -> list V -> js W V) (only parsing).

(** [f.apply(this, args)] where [f] was read from a slot that may be
    [undefined]. *)
Definition apply_ (f : option jsfun) (this : R) (args : list V) : js W V :=
  match f with
  | Some g => g this args
  | None => throw (TypeError "orig is undefined")
  end.

(** The three advice signatures, in the argument order of the source. *)
Definition before_advice : Type := list V -> option jsfun -> R -> js W (list V).
Definition after_advice : Type := V -> list V -> option jsfun -> R -> js W V.
Definition around_advice : Type := list V -> option jsfun -> R -> js W V.

(** addBefore's [link]:
    [function() { return orig.apply(this, before(arguments, orig, this)); }].
    The callee reference [orig.apply] is evaluated before the argument list,
    so an undefined [orig] throws before the advice runs. *)
Definition link_before (before : before_advice) (orig : option jsfun) : jsfun :=
  fun this arguments =>
    match orig with
    | None => throw (TypeError "orig is undefined")
    | Some f => (args' <- before arguments orig this ;; f this args')
    end.

(** addAfter's [link]:
    [function() { return after(orig.apply(this, arguments), arguments, orig, this); }] *)
Definition link_after (after : after_advice) (orig : option jsfun) : jsfun :=
  fun this arguments =>
    (r <- apply_ orig this arguments ;; after r arguments orig this).

(** addAround's [link]:
    [function() { return around(arguments, orig, this); }] *)
Definition link_around (around : around_advice) (orig : option jsfun) : jsfun :=
  fun this arguments => around arguments orig this.

(** The [filter] argument of [process_]: a plain member name (neither [exec]
    nor [call] present), a pattern object ([filter.exec]), or a predicate
    function ([filter.call]); for the last two only the truthiness of the
    match result is used. *)
Inductive filter : Type :=
| Name (member : string)
| Pattern (exec : string -> bool)
| Predicate (call : string -> bool).

(** [attach_]: [var orig = obj[member]; obj[member] = link(orig);]
    ([F]: whatever stands for a function value in the slots). *)
Definition attach_ {F : Type} (obj : gmap string F) (member : string)
  (link : option F -> F) : gmap string F :=
  let orig := obj !! member in
  <[member := link orig]> obj.

(** The loop of [process_]: [for (var member in obj)
    if (check(member)) this.attach_(obj, member, link);] *)
Definition attach_matching {F : Type} (check : string -> bool) (obj : gmap string F)
  (link : option F -> F) : gmap string F :=
  foldr (fun member o => if check member then attach_ o member link else o)
        obj (map fst (map_to_list obj)).

(** [process_]: a filter with [exec] or [call] gives the check and every
    enumerated member passing it is attached to; otherwise the filter itself
    is the member name. *)
Definition process_ {F : Type} (obj : gmap string F) (flt : filter)
  (link : option F -> F) : gmap string F :=
  match flt with
  | Pattern exec => attach_matching exec obj link
  | Predicate call => attach_matching call obj link
  | Name member => attach_ obj member link
  end.

Definition addBefore (obj : gmap string jsfun) (flt : filter) (before : before_advice) :=
  process_ obj flt (link_before before).

Definition addAfter (obj : gmap string jsfun) (flt : filter) (after : after_advice) :=
  process_ obj flt (link_after after).

Definition addAround (obj : gmap string jsfun) (flt : filter) (around : around_advice) :=
  process_ obj flt (link_around around).

(** [receiver.m(args...)] where the function is read from [obj]'s slot [m]
    ([receiver] is [obj] itself for an ordinary method call). *)
Definition invoke (obj : gmap string jsfun) (m : string) (receiver : R)
  (args : list V) : js W V :=
  match obj !! m with
  | Some f => f receiver args
  | None => throw (TypeError "obj.m is not a function")
  end.

End Engine.
(** The same type, with the world, receiver and value types spelled out. *)
Abbreviation jsfun W R V := (R -> list V -> js W V) (only parsing).
Arguments before_advice : clear implicits.
Arguments after_advice : clear implicits.
Arguments around_advice : clear implicits.
End Aop.

(* --------------------------------------------------------------------- *)
(** *** Properties of the advice engine *)
(* --------------------------------------------------------------------- *)

Section AopFacts.
Import Aop.
Context {W R V : Type}.
Implicit Types (obj : gmap string (jsfun W R V)) (m : string) (r : R) (args : list V).

Lemma attach_lookup {F : Type} (o : gmap string F) m link :
  attach_ o m link !! m = Some (link (o !! m)).
Proof. unfold attach_. apply lookup_insert_eq. Qed.

Lemma attach_lookup_ne {F : Type} (o : gmap string F) m m' link :
  m <> m' -> attach_ o m link !! m' = o !! m'.
Proof. intros Hne. unfold attach_. now apply lookup_insert_ne. Qed.

Lemma invoke_attach obj m link r args w :
  invoke (attach_ obj m link) m r args w = link (obj !! m) r args w.
Proof. unfold invoke. now rewrite attach_lookup. Qed.

(** A pattern or predicate filter wraps exactly the members it accepts. *)
Lemma process_check_lookup {F : Type} (check : string -> bool) (link : option F -> F)
  (keys : list string) (o : gmap string F) k :
  NoDup keys ->
  foldr (fun member o => if check member then attach_ o member link else o) o keys !! k
  = if bool_decide (k ∈ keys) && check k then Some (link (o !! k)) else o !! k.
Proof.
  induction keys as [|a keys IH]; intros Hnd; simpl.
  - reflexivity.
  - apply NoDup_cons in Hnd as [Hna Hnd]. specialize (IH Hnd).
    destruct (decide (k = a)) as [->|Hka].
    + rewrite bool_decide_eq_true_2 by left. simpl.
      destruct (check a) eqn:Hc.
      * rewrite attach_lookup. rewrite IH.
        rewrite bool_decide_eq_false_2 by assumption. reflexivity.
      * rewrite IH. rewrite bool_decide_eq_false_2 by assumption. reflexivity.
    + assert (Hiff : bool_decide (k ∈ a :: keys) = bool_decide (k ∈ keys)).
      { apply bool_decide_ext. rewrite elem_of_cons. tauto. }
      rewrite Hiff.
      destruct (check a); [rewrite attach_lookup_ne by congruence|]; apply IH.
Qed.

Lemma attach_matching_lookup {F : Type} (check : string -> bool) (link : option F -> F)
  (o : gmap string F) k :
  attach_matching check o link !! k
  = (fun f => if check k then link (Some f) else f) <$> o !! k.
Proof.
  unfold attach_matching. rewrite process_check_lookup by apply NoDup_fst_map_to_list.
  destruct (o !! k) as [f|] eqn:Hk; simpl.
  - rewrite bool_decide_eq_true_2; [destruct (check k); reflexivity|].
    apply list_elem_of_fmap. exists (k, f). split; [reflexivity|].
    now apply elem_of_map_to_list.
  - rewrite bool_decide_eq_false_2; [reflexivity|].
    intros Hin. apply list_elem_of_fmap in Hin as [[k' f] [-> Hin]].
    apply elem_of_map_to_list in Hin. simpl in Hk. congruence.
Qed.

(** With a pattern that accepts [m] the slot gets the same wrapper as with
    the plain name, and the members the pattern rejects are left alone. *)
Lemma process_pattern_lookup {F : Type} (exec : string -> bool) (link : option F -> F)
  (o : gmap string F) m f :
  o !! m = Some f -> exec m = true ->
  process_ o (Pattern exec) link !! m = process_ o (Name m) link !! m.
Proof.
  intros Hm He. simpl. rewrite attach_matching_lookup, attach_lookup, Hm. simpl.
  now rewrite He.
Qed.

(** C2. After-advice composition order: with [m] a member of [obj], after
    [addAfter(obj, m, A)] and then [addAfter(obj, m, B)] the slot holds B's
    wrapper around A's wrapper around the original (the last attached advice
    is outermost), and a call runs the original first, hands its result to
    A, hands A's return value to B, and returns what B returns. *)
Theorem addAfter_twice_composes obj m orig (A B : after_advice W R V) r args :
  obj !! m = Some orig ->
  let obj2 := addAfter (addAfter obj (Name m) A) (Name m) B in
  obj2 !! m = Some (link_after B (Some (link_after A (Some orig)))) /\
  forall w,
    invoke obj2 m r args w
    = (v0 <- orig r args ;;
       v1 <- A v0 args (Some orig) r ;;
       B v1 args (Some (link_after A (Some orig))) r) w.
Proof.
  intros Hm obj2. subst obj2. unfold addAfter, process_.
  assert (Hslot : attach_ (attach_ obj m (link_after A)) m (link_after B) !! m
                  = Some (link_after B (Some (link_after A (Some orig))))).
  { rewrite attach_lookup, attach_lookup, Hm. reflexivity. }
  split; [exact Hslot|].
  intros w. unfold invoke. rewrite Hslot.
  unfold link_after at 1. unfold link_after at 1. unfold apply_.
  rewrite bind_assoc. reflexivity.
Qed.

(** C3. Before-advice argument rewrite: after [addBefore(obj, m, fn)] a call
    with arguments [xs] first runs [fn(xs, orig, receiver)], then the
    original with the list [fn] returned, and returns the original's result
    as it is. *)
Theorem addBefore_rewrites_arguments obj m orig (fn : before_advice W R V) r xs :
  obj !! m = Some orig ->
  forall w,
    invoke (addBefore obj (Name m) fn) m r xs w
    = (ys <- fn xs (Some orig) r ;; orig r ys) w.
Proof.
  intros Hm w. unfold addBefore, process_.
  rewrite invoke_attach, Hm. reflexivity.
Qed.

(** C9. Receiver preservation: whatever object the advice was attached
    through, a later call of the wrapped member on a receiver [r] applies the
    original (before/after) with [this = r] and hands the advice that same
    [r]; the installed wrapper depends only on the original function and the
    advice, not on the object named at attachment time. *)
Theorem advice_preserves_receiver obj m orig
  (before : before_advice W R V) (after : after_advice W R V)
  (around : around_advice W R V) r args :
  obj !! m = Some orig ->
  (forall w, invoke (addBefore obj (Name m) before) m r args w
             = (ys <- before args (Some orig) r ;; orig r ys) w) /\
  (forall w, invoke (addAfter obj (Name m) after) m r args w
             = (v <- orig r args ;; after v args (Some orig) r) w) /\
  (forall w, invoke (addAround obj (Name m) around) m r args w
             = around args (Some orig) r w) /\
  (forall obj', obj' !! m = Some orig ->
     addBefore obj' (Name m) before !! m = addBefore obj (Name m) before !! m /\
     addAfter obj' (Name m) after !! m = addAfter obj (Name m) after !! m /\
     addAround obj' (Name m) around !! m = addAround obj (Name m) around !! m).
Proof.
  intros Hm. unfold addBefore, addAfter, addAround, process_.
  repeat split; intros.
  - rewrite invoke_attach, Hm. reflexivity.
  - rewrite invoke_attach, Hm. reflexivity.
  - rewrite invoke_attach, Hm. reflexivity.
  - rewrite !attach_lookup. congruence.
  - rewrite !attach_lookup. congruence.
  - rewrite !attach_lookup. congruence.
Qed.

End AopFacts.

(** A concrete object for the advice engine: the world is a call log, the
    receivers are object names, the values are integers. *)
Module AopExample.
Import Aop.

Definition log (entry : string) : js (list string) unit :=
  modify (fun l => (l ++ [entry])%list).

Definition original : jsfun (list string) string Z :=
  fun this args => (log ("orig@" ++ this) ;;; ret (1 + foldr Z.add 0 args)%Z).

Definition adviceA : after_advice (list string) string Z :=
  fun result _ _ this => (log ("A@" ++ this) ;;; ret (result + 10)%Z).

Definition adviceB : after_advice (list string) string Z :=
  fun result _ _ this => (log ("B@" ++ this) ;;; ret (result * 2)%Z).

Definition doubleArgs : before_advice (list string) string Z :=
  fun args _ this => (log ("before@" ++ this) ;;; ret (map (Z.mul 2) args)).

Definition skipOriginal : around_advice (list string) string Z :=
  fun args _ this => (log ("around@" ++ this) ;;; ret (Z.of_nat (length args))).

Definition example_obj : gmap string (jsfun (list string) string Z) :=
  {[ "m" := original ]}.

End AopExample.

Lemma addAfter_twice_composes_witness :
  AopExample.example_obj !! "m" = Some AopExample.original /\
  Aop.invoke (Aop.addAfter (Aop.addAfter AopExample.example_obj (Aop.Name "m")
                              AopExample.adviceA) (Aop.Name "m") AopExample.adviceB)
             "m" "obj" [] []
  = (["orig@obj"; "A@obj"; "B@obj"], Normal 22%Z).
Proof.
  split; [reflexivity|].
  rewrite (proj2 (addAfter_twice_composes AopExample.example_obj "m"
                    AopExample.original AopExample.adviceA AopExample.adviceB
                    "obj" [] eq_refl)).
  reflexivity.
Defined.

Lemma addBefore_rewrites_arguments_witness :
  AopExample.example_obj !! "m" = Some AopExample.original /\
  Aop.invoke (Aop.addBefore AopExample.example_obj (Aop.Name "m") AopExample.doubleArgs)
             "m" "obj" [3; 4]%Z []
  = (["before@obj"; "orig@obj"], Normal 15%Z).
Proof.
  split; [reflexivity|].
  rewrite (addBefore_rewrites_arguments AopExample.example_obj "m"
             AopExample.original AopExample.doubleArgs "obj" [3; 4]%Z eq_refl).
  reflexivity.
Defined.

Lemma advice_preserves_receiver_witness :
  AopExample.example_obj !! "m" = Some AopExample.original /\
  Aop.invoke (Aop.addAfter AopExample.example_obj (Aop.Name "m") AopExample.adviceA)
             "m" "other" [5]%Z []
  = (["orig@other"; "A@other"], Normal 16%Z).
Proof.
  split; [reflexivity|].
  rewrite (proj1 (proj2 (advice_preserves_receiver AopExample.example_obj "m"
             AopExample.original AopExample.doubleArgs AopExample.adviceA
             AopExample.skipOriginal "other" [5]%Z eq_refl))).
  reflexivity.
Defined.

(* ===================================================================== *)
(** ** The digitizer buttons (lines 154-216) *)
(* ===================================================================== *)

Module Toggle.

(** [button.opts]: the two image urls (the cosmetic options play no part). *)
Record button_opts : Type := {
  img_up_url : string;
  img_down_url : string
}.

(** A button object; of the image element only the [src] attribute is read
    back by the code. *)
Record button : Type := {
  opts : button_opts;
  img_src : string
}.

Definition set_src (url : string) (b : button) : button :=
  {| opts := opts b; img_src := url |}.

Section Registry.

(** [H]: whatever the digitizer tools and the map own (listeners, shapes). *)
Context {H : Type}.

(** The state the digitizing functions can reach: [me.buttons_] (through
    [toggleButtons]) and their own [H].  [me.stopDigitizingFuncs_] holds
    those functions and is passed alongside. *)
Record world : Type := {
  buttons_ : gmap string button;
  host : H
}.

Definition set_buttons (f : gmap string button -> gmap string button) (w : world) : world :=
  {| buttons_ := f (buttons_ w); host := host w |}.

(** [stopDigitizing(toggleButtons)]: the argument is [false] when called
    from [toggleButtons] and absent ([None]) when called from a click. *)
Abbreviation stop_fn := (option bool -> js world unit) (only parsing).

(** [if (button_name)]: undefined and the empty string are falsy. *)
Definition truthy (button_name : option string) : bool :=
  match button_name with
  | Some s => negb (String.eqb s "")
  | None => false
  end.

Fixpoint assoc {A} (o : list (string * A)) (key : string) : option A :=
  match o with
  | [] => None
  | (k, v) :: rest => if String.eqb k key then Some v else assoc rest key
  end.

(** [o[key] = v] on an object kept in enumeration order. *)
Fixpoint assoc_set {A} (o : list (string * A)) (key : string) (v : A) : list (string * A) :=
  match o with
  | [] => [(key, v)]
  | (k, x) :: rest =>
      if String.eqb k key then (k, v) :: rest else (k, x) :: assoc_set rest key v
  end.

(** [for (var key in o) body(key)] *)
Fixpoint for_in {A} (o : list (string * A)) (body : string -> js world unit) : js world unit :=
  match o with
  | [] => ret tt
  | (key, _) :: rest => (body key ;;; for_in rest body)
  end.

(** Lines 200-202: every button gets its up image. *)
Definition all_up (bs : gmap string button) : gmap string button :=
  (fun b => set_src (img_up_url (opts b)) b) <$> bs.

(** Line 204: [me.buttons_[button_name].img.src = ...opts.img_down_url]. *)
Definition press (name : string) : js world unit :=
  fun w =>
    match buttons_ w !! name with
    | Some b =>
        (set_buttons (insert name (set_src (img_down_url (opts b)) b)) w, Normal tt)
    | None => (w, Throw (TypeError "me.buttons_[button_name] is undefined"))
    end.

(** [GeometryControls.prototype.toggleButtons] *)
Definition toggleButtons (stopDigitizingFuncs_ : list (string * stop_fn))
  (button_name : option string) : js world unit :=
  modify (set_buttons all_up) ;;;
  (if truthy button_name then press (default "" button_name) else ret tt) ;;;
  if truthy button_name then
    for_in stopDigitizingFuncs_ (fun func =>
      if negb (String.eqb func (default "" button_name)) then
        match assoc stopDigitizingFuncs_ func with
        | Some stop => stop (Some false)
        | None => throw (TypeError "stopDigitizingFuncs_[func] is not a function")
        end
      else ret tt)
  else ret tt.

(** The click listener [createButton] attaches to the button image (lines
    176-184); [button] in the closure is the object stored under
    [controlName] at line 186.  A click on an image that was never created
    is no event at all. *)
Definition click (stopDigitizingFuncs_ : list (string * stop_fn))
  (controlName : string) (startDigitizing : js world unit) (stopDigitizing : stop_fn)
  : js world unit :=
  fun w =>
    match buttons_ w !! controlName with
    | None => (w, Normal tt)
    | Some b =>
        if String.eqb (img_src b) (img_up_url (opts b)) then
          (toggleButtons stopDigitizingFuncs_ (Some controlName) ;;; startDigitizing) w
        else
          (toggleButtons stopDigitizingFuncs_ (Some controlName) ;;; stopDigitizing None) w
    end.

(** The registrations of [createButton] (lines 163-173 and 186-187): a fresh
    button showing its up image, and the stop function under the same name. *)
Definition createButton (controlName : string) (button_opts : button_opts)
  (stopDigitizing : stop_fn) (funcs : list (string * stop_fn)) (w : world)
  : list (string * stop_fn) * world :=
  let b := {| opts := button_opts; img_src := img_up_url button_opts |} in
  (assoc_set funcs controlName stopDigitizing,
   set_buttons (insert controlName b) w).

(** Successive [toggleButtons(name)] calls. *)
Fixpoint toggle_each (funcs : list (string * stop_fn)) (names : list string) : js world unit :=
  match names with
  | [] => ret tt
  | n :: rest => (toggleButtons funcs (Some n) ;;; toggle_each funcs rest)
  end.

(** *** Reading the buttons *)

(** The listener's own test [src === img_up_url]. *)
Definition shows_up (w : world) (name : string) : Prop :=
  exists b, buttons_ w !! name = Some b /\ img_src b = img_up_url (opts b).

Definition shows_down (w : world) (name : string) : Prop :=
  exists b, buttons_ w !! name = Some b /\ img_src b = img_down_url (opts b).

(** A tool is on when its button exists and fails the listener's up test. *)
Definition is_on (w : world) (name : string) : Prop :=
  exists b, buttons_ w !! name = Some b /\ img_src b <> img_up_url (opts b).

Definition none_active (w : world) : Prop :=
  forall name b, buttons_ w !! name = Some b -> img_src b = img_up_url (opts b).

(** *** What is asked of the tools *)

(** The function returns normally and leaves [me.buttons_] as it found it. *)
Definition keeps_buttons (f : js world unit) : Prop :=
  forall w, exists w', f w = (w', Normal tt) /\ buttons_ w' = buttons_ w.


(** Modelled from the spec: a tool's [stopDigitizing(toggleButtons)], whose
    body is in the geometry control files and not in geometrycontrols.js.
    Following section 4.2 (the [notifyOthers = false] flag keeps a
    deactivation from reaching the other tools) and the note at lines
    207-208 (calls from outside pass no parameter), the tool releases its
    own state and, unless told [false], calls [toggleButtons()]. *)
Definition protocol_stop (release : H -> H) : stop_fn :=
  fun notifyOthers =>
    modify (fun w => {| buttons_ := buttons_ w; host := release (host w) |}) ;;;
    match notifyOthers with
    | Some false => ret tt
    | _ => toggleButtons [] None
    end.

(** Modelled from the spec: a tool's [startDigitizing()] (section 3,
    [activate: () -> void]); it arms the tool's own listeners only. *)
Definition protocol_start (arm : H -> H) : js world unit :=
  modify (fun w => {| buttons_ := buttons_ w; host := arm (host w) |}).

End Registry.
Arguments world : clear implicits.
Abbreviation stop_fn H := (option bool -> js (world H) unit) (only parsing).
End Toggle.

(* --------------------------------------------------------------------- *)
(** *** Properties of the buttons *)
(* --------------------------------------------------------------------- *)

Section ToggleFacts.
Import Toggle.
Context {H : Type}.
Implicit Types (w : world H) (funcs : list (string * stop_fn H)) (b : button).

Lemma keeps_buttons_ret : keeps_buttons (H:=H) (ret tt).
Proof. intros w. exists w. split; reflexivity. Qed.

Lemma keeps_buttons_bind (f g : js (world H) unit) :
  keeps_buttons f -> keeps_buttons g -> keeps_buttons (f ;;; g).
Proof.
  intros Hf Hg w. destruct (Hf w) as (w1 & E1 & B1). destruct (Hg w1) as (w2 & E2 & B2).
  exists w2. split; [|congruence].
  rewrite (bind_normal _ _ _ _ _ E1). exact E2.
Qed.

Lemma assoc_In {A} (o : list (string * A)) k v : assoc o k = Some v -> In (k, v) o.
Proof.
  induction o as [|[k' v'] o IH]; simpl; [discriminate|].
  destruct (String.eqb k' k) eqn:E.
  - apply String.eqb_eq in E. intros [= ->]. left. now subst.
  - intros Hv. right. now apply IH.
Qed.

Lemma assoc_fst {A} (o : list (string * A)) k :
  In k (map fst o) -> exists v, assoc o k = Some v.
Proof.
  induction o as [|[k' v'] o IH]; simpl; [tauto|].
  intros [<-|Hin].
  - rewrite String.eqb_refl. eauto.
  - destruct (String.eqb k' k); eauto.
Qed.

Lemma for_in_keeps {A} (o : list (string * A)) (body : string -> js (world H) unit) :
  (forall k, In k (map fst o) -> keeps_buttons (body k)) -> keeps_buttons (for_in o body).
Proof.
  induction o as [|[k v] o IH]; simpl; intros Hb.
  - apply keeps_buttons_ret.
  - apply keeps_buttons_bind; [apply Hb; now left|].
    apply IH. intros k' Hk'. apply Hb. now right.
Qed.

(** The loop of lines 210-214 when every function it may reach keeps the
    buttons. *)
Lemma stop_others_keeps funcs name :
  (forall n f, In (n, f) funcs -> n <> name -> keeps_buttons (f (Some false))) ->
  keeps_buttons (for_in funcs (fun func =>
      if negb (String.eqb func name) then
        match assoc funcs func with
        | Some stop => stop (Some false)
        | None => throw (TypeError "stopDigitizingFuncs_[func] is not a function")
        end
      else ret tt)).
Proof.
  intros Hf. apply for_in_keeps. intros k Hk.
  destruct (String.eqb k name) eqn:E; simpl; [apply keeps_buttons_ret|].
  destruct (assoc_fst _ _ Hk) as [f Hfk]. rewrite Hfk.
  apply (Hf k f); [now apply assoc_In|].
  intros ->. now rewrite String.eqb_refl in E.
Qed.

(** A call without a usable name only raises the buttons. *)
Lemma toggleButtons_falsy funcs button_name w :
  truthy button_name = false ->
  toggleButtons funcs button_name w = (set_buttons all_up w, Normal tt).
Proof. intros Ht. unfold toggleButtons. rewrite Ht. reflexivity. Qed.

Definition pressed (b : button) : button := set_src (img_down_url (opts b)) b.

(** A call with a registered, non-empty name. *)
Lemma toggleButtons_named funcs name w b :
  name <> "" ->
  buttons_ w !! name = Some b ->
  (forall n f, In (n, f) funcs -> n <> name -> keeps_buttons (f (Some false))) ->
  exists w', toggleButtons funcs (Some name) w = (w', Normal tt) /\
             buttons_ w' = <[name := pressed b]> (all_up (buttons_ w)).
Proof.
  intros Hne Hb Hf. unfold toggleButtons.
  assert (Ht : truthy (Some name) = true).
  { simpl. destruct (String.eqb name "") eqn:E; [|reflexivity].
    apply String.eqb_eq in E. contradiction. }
  rewrite Ht. simpl default.
  set (w1 := set_buttons all_up w).
  assert (Hp : press name w1
               = (set_buttons (insert name (pressed b)) w1, Normal tt)).
  { unfold press, w1. simpl. unfold all_up at 1. rewrite lookup_fmap, Hb. reflexivity. }
  destruct (stop_others_keeps funcs name Hf (set_buttons (insert name (pressed b)) w1))
    as (w' & Ew' & Bw').
  exists w'. split; [|rewrite Bw'; reflexivity].
  unfold bind at 1. unfold modify. fold w1.
  unfold bind at 1. rewrite Hp. exact Ew'.
Qed.

Lemma all_up_lookup (bs : gmap string button) name b :
  all_up bs !! name = Some b ->
  img_src b = img_up_url (opts b).
Proof.
  unfold all_up. rewrite lookup_fmap. destruct (bs !! name); simpl; [|discriminate].
  intros [= <-]. reflexivity.
Qed.

Lemma all_up_is_Some (bs : gmap string button) name :
  is_Some (all_up bs !! name) <-> is_Some (bs !! name).
Proof. unfold all_up. rewrite lookup_fmap. apply fmap_is_Some. Qed.

(** After one [toggleButtons(name)] with a registered name: only [name] can
    be on, everyone else shows the up image, and [name] (when it is a usable
    name) shows its down image; the registered names stay the same. *)
Lemma toggleButtons_post funcs name w :
  is_Some (buttons_ w !! name) ->
  (forall n f, In (n, f) funcs -> keeps_buttons (f (Some false))) ->
  exists w', toggleButtons funcs (Some name) w = (w', Normal tt) /\
    (forall n, is_on w' n -> n = name) /\
    (forall n, n <> name -> is_Some (buttons_ w' !! n) -> shows_up w' n) /\
    (name <> "" -> shows_down w' name) /\
    (forall n, is_Some (buttons_ w' !! n) <-> is_Some (buttons_ w !! n)).
Proof.
  intros [b Hb] Hf. destruct (decide (name = "")) as [->|Hne].
  - exists (set_buttons all_up w). split; [now apply toggleButtons_falsy|].
    assert (Hup : forall n b', buttons_ (set_buttons all_up w) !! n = Some b' ->
                               img_src b' = img_up_url (opts b')).
    { intros n b' Hn. eapply all_up_lookup. exact Hn. }
    repeat split.
    + intros n (b' & Hn & Hon). exfalso. apply Hon. eauto.
    + intros n _ [b' Hn]. exists b'. eauto.
    + intros Hc. now contradiction Hc.
    + simpl. apply all_up_is_Some.
    + simpl. apply all_up_is_Some.
  - destruct (toggleButtons_named funcs name w b Hne Hb) as (w' & Ew' & Bw').
    { intros n f Hin _. eapply Hf; eauto. }
    exists w'. split; [exact Ew'|].
    unfold is_on, shows_up, shows_down. rewrite Bw'. repeat split.
    + intros n (b' & Hn & Hon). destruct (decide (n = name)) as [|Hnn]; [assumption|].
      rewrite lookup_insert_ne in Hn by congruence.
      exfalso. apply Hon. eapply all_up_lookup; eauto.
    + intros n Hnn [b' Hn]. rewrite lookup_insert_ne in Hn by congruence.
      exists b'. rewrite lookup_insert_ne by congruence. split; [assumption|].
      eapply all_up_lookup; eauto.
    + intros _. exists (pressed b). rewrite lookup_insert_eq. split; reflexivity.
    + intros Hs. destruct (decide (n = name)) as [->|Hnn]; [eauto|].
      rewrite lookup_insert_ne in Hs by congruence. now apply all_up_is_Some.
    + intros Hs. destruct (decide (n = name)) as [->|Hnn].
      * rewrite lookup_insert_eq. eauto.
      * rewrite lookup_insert_ne by congruence. now apply all_up_is_Some.
Qed.

(** Showing the down image is being on, for a button whose two images
    differ. *)
Lemma shows_down_is_on w n b :
  buttons_ w !! n = Some b ->
  img_up_url (opts b) <> img_down_url (opts b) ->
  img_src b = img_down_url (opts b) ->
  is_on w n.
Proof. intros Hn Hdiff Hsrc. exists b. split; [assumption|congruence]. Qed.

(** C1. Exclusivity: run any sequence of [toggleButtons(name)] calls with
    registered names, the stop functions leaving the buttons alone when
    called with [false].  Every call completes, and after the last one no
    tool other than the one just named is on: every other button shows its
    up image and the named one (for a non-empty name) its down image; among
    the buttons whose two images differ only the named one can show its down
    image. *)
Theorem toggle_exclusive funcs (names : list string) (last : string) w :
  (forall n f, In (n, f) funcs -> keeps_buttons (f (Some false))) ->
  (forall n, In n (names ++ [last]) -> is_Some (buttons_ w !! n)) ->
  exists w', toggle_each funcs (names ++ [last]) w = (w', Normal tt) /\
    (forall n, is_on w' n -> n = last) /\
    (forall n m, is_on w' n -> is_on w' m -> n = m) /\
    (forall n, n <> last -> is_Some (buttons_ w' !! n) -> shows_up w' n) /\
    (last <> "" -> shows_down w' last) /\
    (forall n b, buttons_ w' !! n = Some b ->
                 img_up_url (opts b) <> img_down_url (opts b) ->
                 img_src b = img_down_url (opts b) -> n = last).
Proof.
  intros Hf. revert w. induction names as [|n0 names IH]; intros w Hreg; simpl.
  - destruct (toggleButtons_post funcs last w) as (w' & Ew' & Hon & Hup & Hdown & _).
    { apply Hreg. now left. }
    { exact Hf. }
    exists w'. split; [rewrite (bind_normal _ _ _ _ _ Ew'); reflexivity|].
    repeat split; try assumption.
    + intros n m Hn Hm. rewrite (Hon n Hn), (Hon m Hm). reflexivity.
    + intros n b Hn Hdiff Hsrc. apply Hon. eapply shows_down_is_on; eauto.
  - destruct (toggleButtons_post funcs n0 w) as (w1 & Ew1 & _ & _ & _ & Hdom).
    { apply Hreg. now left. }
    { exact Hf. }
    destruct (IH w1) as (w' & Ew' & Hpost).
    { intros n Hn. apply Hdom. apply Hreg. now right. }
    exists w'. split; [|exact Hpost].
    rewrite (bind_normal _ _ _ _ _ Ew1). exact Ew'.
Qed.

(** C7 (as the code has it). [toggleButtons()] without a usable name gives
    every button its up image and does nothing else: it returns normally,
    leaves the tools' state untouched and its outcome does not depend on the
    registered stop functions, none of which is called (so nothing can lead
    back into [toggleButtons]). *)
Theorem toggleButtons_no_name_only_raises funcs button_name w :
  truthy button_name = false ->
  toggleButtons funcs button_name w
  = ({| buttons_ := all_up (buttons_ w); host := host w |}, Normal tt) /\
  toggleButtons funcs button_name w = toggleButtons [] button_name w /\
  none_active (fst (toggleButtons funcs button_name w)).
Proof.
  intros Ht. rewrite !toggleButtons_falsy by assumption.
  repeat split. intros n b Hn. eapply all_up_lookup. exact Hn.
Qed.

End ToggleFacts.

Section ClickFacts.
Import Toggle.
Context {H : Type}.
Implicit Types (w : world H) (funcs : list (string * stop_fn H)) (b : button).




Lemma pressed_alone (bs : gmap string button) X b w :
  buttons_ w = <[X := pressed b]> (all_up bs) ->
  shows_down w X /\ (forall n, is_on w n -> n = X).
Proof.
  intros Bw. unfold shows_down, is_on. rewrite Bw. split.
  - exists (pressed b). rewrite lookup_insert_eq. split; reflexivity.
  - intros n (b' & Hn & Hon). destruct (decide (n = X)) as [|Hnx]; [assumption|].
    rewrite lookup_insert_ne in Hn by congruence.
    exfalso. apply Hon. eapply all_up_lookup; eauto.
Qed.



(** The spec-modelled stop and start functions meet [tools_behave]. *)
Lemma protocol_stop_false_keeps (release : H -> H) :
  keeps_buttons (protocol_stop release (Some false)).
Proof. intros w. eexists. split; reflexivity. Qed.



End ClickFacts.

(** Two registered tools whose stop and start functions keep a log of their
    own calls (name and argument) on top of the modelled protocol. *)
Module ToggleExample.
Import Toggle.

Definition calls : Type := list (string * option bool).

Definition spy_stop (name : string) : stop_fn calls :=
  fun arg => protocol_stop (fun log => (log ++ [(name, arg)])%list) arg.

Definition spy_start (name : string) : js (world calls) unit :=
  protocol_start (fun log => (log ++ [((name ++ ".start")%string, None)])%list).

Definition marker_opts : button_opts :=
  {| img_up_url := "marker_up.png"; img_down_url := "marker_down.png" |}.

Definition polygon_opts : button_opts :=
  {| img_up_url := "polygon_up.png"; img_down_url := "polygon_down.png" |}.

Definition empty_world : world calls := {| buttons_ := ∅; host := [] |}.

Definition registered : list (string * stop_fn calls) * world calls :=
  let '(funcs, w) :=
    createButton "markerControl" marker_opts (spy_stop "markerControl") [] empty_world in
  createButton "polygonControl" polygon_opts (spy_stop "polygonControl") funcs w.

Definition spy_funcs : list (string * stop_fn calls) := fst registered.
Definition spy_world : world calls := snd registered.

Lemma spy_funcs_keep n f :
  In (n, f) spy_funcs -> keeps_buttons (f (Some false)).
Proof.
  intros [E|[E|[]]]; injection E as <- <-; apply protocol_stop_false_keeps.
Qed.


End ToggleExample.

Lemma toggle_exclusive_witness :
  (forall n, In n (["markerControl"] ++ ["polygonControl"])%list ->
             is_Some (Toggle.buttons_ ToggleExample.spy_world !! n)) /\
  exists w',
    Toggle.toggle_each ToggleExample.spy_funcs ["markerControl"; "polygonControl"]
      ToggleExample.spy_world = (w', Normal tt) /\
    (forall n, Toggle.is_on w' n -> n = "polygonControl") /\
    Toggle.shows_up w' "markerControl" /\
    Toggle.shows_down w' "polygonControl".
Proof.
  assert (Hreg : forall n, In n (["markerControl"] ++ ["polygonControl"])%list ->
                           is_Some (Toggle.buttons_ ToggleExample.spy_world !! n)).
  { intros n [<-|[<-|[]]]; eexists; reflexivity. }
  split; [exact Hreg|].
  destruct (toggle_exclusive ToggleExample.spy_funcs ["markerControl"] "polygonControl"
              ToggleExample.spy_world ToggleExample.spy_funcs_keep Hreg)
    as (w' & Hrun & Hon & _ & Hup & Hdown & _).
  exists w'. split; [exact Hrun|]. split; [exact Hon|]. split.
  - apply Hup; [discriminate|].
    injection Hrun as <-. eexists. reflexivity.
  - apply Hdown. discriminate.
Defined.

(** The run of the witness, evaluated: the marker tool is told to stop with
    [false] once, by the second call. *)
Example toggle_each_run :
  let w' := fst (Toggle.toggle_each ToggleExample.spy_funcs
                   ["markerControl"; "polygonControl"] ToggleExample.spy_world) in
  Toggle.img_src <$> Toggle.buttons_ w' !! "markerControl" = Some "marker_up.png" /\
  Toggle.img_src <$> Toggle.buttons_ w' !! "polygonControl" = Some "polygon_down.png" /\
  Toggle.host w' = [("polygonControl", Some false); ("markerControl", Some false)].
Proof. vm_compute. repeat split. Qed.


(** The three clicks of the witness, evaluated: image after each click and
    the calls the tools received. *)
Example three_clicks_run :
  let click := Toggle.click ToggleExample.spy_funcs "markerControl"
                 (ToggleExample.spy_start "markerControl")
                 (ToggleExample.spy_stop "markerControl") in
  let w1 := fst (click ToggleExample.spy_world) in
  let w2 := fst (click w1) in
  let w3 := fst (click w2) in
  Toggle.img_src <$> Toggle.buttons_ w1 !! "markerControl" = Some "marker_down.png" /\
  Toggle.img_src <$> Toggle.buttons_ w2 !! "markerControl" = Some "marker_up.png" /\
  Toggle.img_src <$> Toggle.buttons_ w3 !! "markerControl" = Some "marker_down.png" /\
  Toggle.host w3 = [("polygonControl", Some false); ("markerControl.start", None);
                    ("polygonControl", Some false); ("markerControl", None);
                    ("polygonControl", Some false); ("markerControl.start", None)].
Proof. vm_compute. repeat split. Qed.

Lemma toggleButtons_no_name_only_raises_witness :
  Toggle.truthy None = false /\
  Toggle.toggleButtons ToggleExample.spy_funcs None ToggleExample.spy_world
  = ({| Toggle.buttons_ := Toggle.all_up (Toggle.buttons_ ToggleExample.spy_world);
        Toggle.host := [] |}, Normal tt).
Proof.
  split; [reflexivity|].
  exact (proj1 (toggleButtons_no_name_only_raises ToggleExample.spy_funcs None
                  ToggleExample.spy_world eq_refl)).
Defined.

(** C7 as stated fails: with both tools registered and the marker tool
    active, [toggleButtons()] calls no stop function at all; in particular
    the marker tool's is not called with [false]. *)
Lemma toggleButtons_no_name_calls_no_stop :
  let active := fst (Toggle.toggleButtons ToggleExample.spy_funcs (Some "markerControl")
                       ToggleExample.spy_world) in
  let w' := fst (Toggle.toggleButtons ToggleExample.spy_funcs None
                   {| Toggle.buttons_ := Toggle.buttons_ active; Toggle.host := [] |}) in
  In "markerControl" (map fst ToggleExample.spy_funcs) /\
  Toggle.host w' = [] /\
  ~ In ("markerControl", Some false) (Toggle.host w').
Proof.
  vm_compute. split; [now left|]. split; [reflexivity|]. intros [].
Qed.

(* ===================================================================== *)
(** ** saveData (lines 323-353) *)
(* ===================================================================== *)

Module Persist.

Definition dquote : ascii := "034"%char.

Section SaveData.

(** [num]: the numbers of the map API (latitudes, longitudes) with their
    JSON rendering; they are only copied and printed, never computed with. *)
Context {num : Type} (number_to_string : num -> string).

(** The JavaScript values a payload is built from. *)
#[warnings="-register-all"]
Inductive val : Type :=
| VUndefined
| VNum (n : num)
| VStr (s : string)
| VArr (items : list val)
| VObj (fields : list (string * val)).

(** **** JSON.stringify on these values *)

Definition hex_digit (n : N) : ascii :=
  match String.get (N.to_nat n) "0123456789abcdef" with
  | Some c => c
  | None => "0"%char
  end.

Definition escape_char (c : ascii) : string :=
  let n := N_of_ascii c in
  if (n =? 34)%N then String "\" (String dquote EmptyString)
  else if (n =? 92)%N then "\\"
  else if (n =? 8)%N then "\b"
  else if (n =? 12)%N then "\f"
  else if (n =? 10)%N then "\n"
  else if (n =? 13)%N then "\r"
  else if (n =? 9)%N then "\t"
  else if (n <? 32)%N then
    "\u00" ++ String (hex_digit (n / 16)) (String (hex_digit (n mod 16)) EmptyString)
  else String c EmptyString.

Fixpoint escape (s : string) : string :=
  match s with
  | EmptyString => EmptyString
  | String c rest => escape_char c ++ escape rest
  end.

Definition quote (s : string) : string :=
  String dquote (escape s ++ String dquote EmptyString).

(** An [undefined] array element prints as [null]; an [undefined] field is
    left out. *)
Fixpoint JSON_stringify (v : val) : string :=
  match v with
  | VUndefined => "null"
  | VNum n => number_to_string n
  | VStr s => quote s
  | VArr items => "[" ++ String.concat "," (map JSON_stringify items) ++ "]"
  | VObj fields =>
      "{" ++ String.concat ","
               ((fix members (fs : list (string * val)) : list string :=
                   match fs with
                   | [] => []
                   | (_, VUndefined) :: rest => members rest
                   | (k, x) :: rest => (quote k ++ ":" ++ JSON_stringify x) :: members rest
                   end) fields)
          ++ "}"
  end.

(** **** The records *)

(** A [GLatLng]. *)
Record GLatLng : Type := { lat : num; lng : num }.

(** [beans.Geometry]: the polygon is its vertex sequence
    ([getVertexCount], [getVertex]); [title] is the array
    [[current, previous]]; [id] is present once the record was stored. *)
Record Geometry : Type := {
  type : string;
  geometry : list GLatLng;
  title : list string;
  id : option string
}.

(** The part of [geomInfo] that [saveData] reads. *)
Record GeomInfo : Type := {
  index : nat;
  storage : list Geometry
}.

Record SaveOpts : Type := {
  allData : bool;
  geomInfo : GeomInfo
}.

(** What [saveData] does to the outside. *)
Inductive effect : Type :=
| ConsoleLog (v : val)
| Post (url : string) (data : val).

Context {W : Type} (emit : effect -> W -> W).

Definition of_option (o : option string) : val :=
  match o with
  | Some s => VStr s
  | None => VUndefined
  end.

(** Lines 337-340, [n] iterations from index [i]. *)
Fixpoint push_vertices (vertices : list GLatLng) (n i : nat) (coordinates : list val)
  : js W (list val) :=
  match n with
  | O => ret coordinates
  | S n' =>
      match vertices !! i with
      | Some vertex =>
          push_vertices vertices n' (S i)
            (coordinates ++ [VArr [VNum (lng vertex); VNum (lat vertex)]])
      | None => throw (TypeError "vertex is undefined")
      end
  end.

(** [GeometryControls.prototype.saveData] *)
Definition saveData (opts : SaveOpts) : js W unit :=
  let geomInfo := geomInfo opts in
  let index := index geomInfo in
  match storage geomInfo !! index with
  | None => throw (TypeError "record is undefined")
  | Some record =>
      coordinates <- push_vertices (geometry record) (length (geometry record)) 0 [] ;;
      let geometry := VObj [("type", VStr "Polygon"); ("coordinates", VArr coordinates)] in
      modify (emit (ConsoleLog (of_option (id record)))) ;;;
      let recordJSON :=
        VObj [("type", VStr (type record));
              ("geometry", VStr (JSON_stringify geometry));
              ("name", of_option (title record !! 0%nat))] in
      match id record with
      | None => modify (emit (Post "/areas" (VObj [("area", recordJSON)])))
      | Some id =>
          modify (emit (Post ("/areas/" ++ id)
                          (VObj [("area", recordJSON); ("_method", VStr "PUT")])))
      end
  end.

(** **** The payload, read off the code *)

Definition lnglat (vertex : GLatLng) : val := VArr [VNum (lng vertex); VNum (lat vertex)].

Definition geojson (record : Geometry) : val :=
  VObj [("type", VStr "Polygon"); ("coordinates", VArr (map lnglat (geometry record)))].

Definition payload (record : Geometry) : val :=
  VObj [("type", VStr (type record));
        ("geometry", VStr (JSON_stringify (geojson record)));
        ("name", of_option (title record !! 0%nat))].

Definition request (record : Geometry) : effect :=
  match id record with
  | None => Post "/areas" (VObj [("area", payload record)])
  | Some id => Post ("/areas/" ++ id) (VObj [("area", payload record); ("_method", VStr "PUT")])
  end.

End SaveData.
Arguments val : clear implicits.
Arguments GLatLng : clear implicits.
Arguments Geometry : clear implicits.
Arguments GeomInfo : clear implicits.
Arguments SaveOpts : clear implicits.
Arguments effect : clear implicits.
End Persist.

(* --------------------------------------------------------------------- *)
(** *** Properties of saveData *)
(* --------------------------------------------------------------------- *)

Section PersistFacts.
Import Persist.
Context {num : Type} (number_to_string : num -> string).
Context {W : Type} (emit : effect num -> W -> W).

(** The vertex loop copies the vertices in order, longitude first. *)
Lemma push_vertices_spec (vertices : list (GLatLng num)) n i coordinates (w : W) :
  i + n <= length vertices ->
  push_vertices vertices n i coordinates w
  = (w, Normal (coordinates ++ map lnglat (take n (drop i vertices)))%list).
Proof.
  revert i coordinates. induction n as [|n IH]; intros i coordinates Hlen; simpl.
  - rewrite app_nil_r. reflexivity.
  - destruct (vertices !! i) as [vertex|] eqn:Hv.
    + rewrite IH by lia.
      rewrite (drop_S _ _ _ Hv). cbn [take map]. rewrite <- app_assoc. reflexivity.
    + apply lookup_ge_None in Hv. lia.
Qed.

Lemma push_vertices_all (vertices : list (GLatLng num)) (w : W) :
  push_vertices vertices (length vertices) 0 [] w = (w, Normal (map lnglat vertices)).
Proof.
  rewrite push_vertices_spec by lia. rewrite drop_0, firstn_all. reflexivity.
Qed.

(** The whole run of [saveData] on a record that is there. *)
Lemma saveData_run (opts : SaveOpts num) (record : Geometry num) (w : W) :
  storage (geomInfo opts) !! index (geomInfo opts) = Some record ->
  saveData number_to_string emit opts w
  = (emit (request number_to_string record)
       (emit (ConsoleLog (of_option (id record))) w), Normal tt).
Proof.
  intros Hrec. unfold saveData. rewrite Hrec.
  rewrite (bind_normal _ _ _ _ _ (push_vertices_all (geometry record) w)).
  unfold request, payload, geojson.
  destruct (id record); reflexivity.
Qed.

(** Without a record at [storage[index]] it throws before doing anything. *)
Lemma saveData_no_record (opts : SaveOpts num) (w : W) :
  storage (geomInfo opts) !! index (geomInfo opts) = None ->
  saveData number_to_string emit opts w = (w, Throw (TypeError "record is undefined")).
Proof. intros Hrec. unfold saveData. rewrite Hrec. reflexivity. Qed.

(** C4 (as the code has it). For the record found at [storage[index]],
    [saveData] logs the record's id and issues one request carrying
    [{type, geometry, name}], where [type] is the record's type, [name] is
    [title[0]] and [geometry] is the JSON text of
    [{type: Polygon, coordinates: [[lng, lat], ...]}] with the vertices in
    their own order; nothing else happens. *)
Theorem saveData_payload (opts : SaveOpts num) (record : Geometry num) (w : W) :
  storage (geomInfo opts) !! index (geomInfo opts) = Some record ->
  saveData number_to_string emit opts w
  = (emit (request number_to_string record)
       (emit (ConsoleLog (of_option (id record))) w), Normal tt) /\
  payload number_to_string record
  = VObj [("type", VStr (type record));
          ("geometry",
           VStr (JSON_stringify number_to_string
                   (VObj [("type", VStr "Polygon");
                          ("coordinates",
                           VArr (map (fun v => VArr [VNum (lng v); VNum (lat v)])
                                   (geometry record)))])));
          ("name", of_option (title record !! 0%nat))].
Proof.
  intros Hrec. split; [now apply saveData_run|reflexivity].
Qed.

End PersistFacts.

(** The record of the payload example: vertices (lat 1, lng 2) and
    (lat 3, lng 4), current title Lot A, not stored yet. *)
Module PersistExample.
Import Persist.

Definition lot_a : Geometry Z :=
  {| type := "poly";
     geometry := [ {| lat := 1; lng := 2 |}; {| lat := 3; lng := 4 |} ]%Z;
     title := ["Lot A"; ""];
     id := None |}.

Definition lot_a_opts : SaveOpts Z :=
  {| allData := false; geomInfo := {| index := 0; storage := [lot_a] |} |}.

Definition record_effect (e : effect Z) (trace : list (effect Z)) : list (effect Z) :=
  (trace ++ [e])%list.

Definition q : string := String dquote EmptyString.

(** [{"type":"Polygon","coordinates":[[2,1],[4,3]]}] *)
Definition lot_a_geometry_text : string :=
  "{" ++ q ++ "type" ++ q ++ ":" ++ q ++ "Polygon" ++ q ++ ","
      ++ q ++ "coordinates" ++ q ++ ":[[2,1],[4,3]]}".

(** The payload as the specification words it: [geometry] as the bare pair
    list. *)
Definition bare_pairs_payload : val Z :=
  VObj [("type", VStr "poly");
        ("geometry", VArr [VArr [VNum 2; VNum 1]; VArr [VNum 4; VNum 3]]%Z);
        ("name", VStr "Lot A")].

End PersistExample.

Lemma saveData_payload_witness :
  Persist.storage (Persist.geomInfo PersistExample.lot_a_opts)
    !! Persist.index (Persist.geomInfo PersistExample.lot_a_opts)
  = Some PersistExample.lot_a /\
  Persist.saveData pretty PersistExample.record_effect PersistExample.lot_a_opts []
  = ([Persist.ConsoleLog Persist.VUndefined;
      Persist.Post "/areas"
        (Persist.VObj
           [("area",
             Persist.VObj [("type", Persist.VStr "poly");
                           ("geometry", Persist.VStr PersistExample.lot_a_geometry_text);
                           ("name", Persist.VStr "Lot A")])])],
     Normal tt).
Proof.
  split; [reflexivity|].
  rewrite (proj1 (saveData_payload pretty PersistExample.record_effect
                    PersistExample.lot_a_opts PersistExample.lot_a [] eq_refl)).
  reflexivity.
Defined.

(** C4 as stated fails: for this record the [geometry] field of the payload
    that is posted is a JSON string, not the list [[2,1],[4,3]]. *)
Lemma saveData_payload_not_bare_pairs :
  Persist.saveData pretty PersistExample.record_effect PersistExample.lot_a_opts []
  = ([Persist.ConsoleLog Persist.VUndefined;
      Persist.Post "/areas"
        (Persist.VObj [("area", Persist.payload pretty PersistExample.lot_a)])],
     Normal tt) /\
  Persist.payload pretty PersistExample.lot_a <> PersistExample.bare_pairs_payload.
Proof.
  split; [reflexivity|]. vm_compute. discriminate.
Qed.

(* ===================================================================== *)
(** ** debug and createGeometry_ (lines 272-289, 432-443) *)
(* ===================================================================== *)

Module Dispatch.
Section CreateGeometry.

(** [H]: what the map and the geometry controls own; [D]: the rest of a
    record (coordinates, title, style); [V]: what a load method returns. *)
Context {H D V : Type}.

(** A record to load.  [type] is [Some s] for a primitive string [s]; any
    other value ([undefined], a number, an object) is [None] and is strictly
    equal to no [case] label. *)
Record geo_record : Type := {
  type : option string;
  data : D
}.

(** [glog]: the lines written with [GLog.write]; [debug_]: the function
    [me.debug] was replaced with on its first call ([Some true]: the writing
    one, [Some false]: the empty one, [None]: still the prototype's). *)
Record world : Type := {
  glog : list string;
  debug_ : option bool;
  host : H
}.

Abbreviation loader := (geo_record -> js world V) (only parsing).

(** [me.Options.debug] and [me.controls] (control name, then method name). *)
Context (Options_debug : bool) (controls : gmap string (gmap string loader)).

Definition GLog_write (msg : string) : js world unit :=
  modify (fun w => {| glog := glog w ++ [msg]; debug_ := debug_ w; host := host w |}).

(** The function [me.debug] currently is. *)
Definition writes (w : world) : bool := default Options_debug (debug_ w).

(** [GeometryControls.prototype.debug] and the function it installs in its
    place. *)
Definition debug (msg : string) : js world unit :=
  fun w =>
    match debug_ w with
    | Some true => GLog_write msg w
    | Some false => (w, Normal tt)
    | None =>
        let w' := {| glog := glog w; debug_ := Some Options_debug; host := host w |} in
        if Options_debug then GLog_write msg w' else (w', Normal tt)
    end.

(** [me.controls[control].method(record)] *)
Definition call_load (control method : string) (record : geo_record) : js world V :=
  match controls !! control with
  | None => throw (TypeError "me.controls[...] is undefined")
  | Some c =>
      match c !! method with
      | None => throw (TypeError "load method is not a function")
      | Some load => load record
      end
  end.

Definition failure_message (e : js_error) : string :=
  "A geometry Control has not been added for the geometry type you are trying to load or there is an error."
  ++ "Your error is: " ++ err_text e ++ " at line " ++ err_lineNumber e
  ++ " in file " ++ err_fileName e.

(** [GeometryControls.prototype.createGeometry_]; [None] is [undefined]. *)
Definition createGeometry_ (record : geo_record) : js world (option V) :=
  try_catch
    (match type record with
     | Some t =>
         if String.eqb t "point" then
           (v <- call_load "markerControl" "loadMarkers" record ;; ret (Some v))
         else if String.eqb t "line" then
           (v <- call_load "polylineControl" "loadPolylines" record ;; ret (Some v))
         else if String.eqb t "poly" then
           (v <- call_load "polygonControl" "loadPolygons" record ;; ret (Some v))
         else ret None
     | None => ret None
     end)
    (fun e => debug (failure_message e) ;;; ret None).

(** The control and load method the switch picks for a listed type. *)
Definition route (t : string) : option (string * string) :=
  if String.eqb t "point" then Some ("markerControl", "loadMarkers")
  else if String.eqb t "line" then Some ("polylineControl", "loadPolylines")
  else if String.eqb t "poly" then Some ("polygonControl", "loadPolygons")
  else None.

End CreateGeometry.
Arguments geo_record : clear implicits.
Arguments world : clear implicits.
End Dispatch.

Section DispatchFacts.
Import Dispatch.
Context {H D V : Type}.
Context (Options_debug : bool).
Context (controls : gmap string (gmap string (geo_record D -> js (world H) V))).

Lemma createGeometry_routed (record : geo_record D) t control method (w : world H) :
  type record = Some t ->
  route t = Some (control, method) ->
  createGeometry_ Options_debug controls record w
  = try_catch (v <- call_load controls control method record ;; ret (Some v))
      (fun e => debug Options_debug (failure_message e) ;;; ret None) w.
Proof.
  intros Ht Hr. unfold createGeometry_, route in *. rewrite Ht.
  destruct (String.eqb t "point"); [injection Hr as <- <-; reflexivity|].
  destruct (String.eqb t "line"); [injection Hr as <- <-; reflexivity|].
  destruct (String.eqb t "poly"); [injection Hr as <- <-; reflexivity|].
  discriminate.
Qed.

(** What [debug] leaves behind: the message at the end of the log when the
    logger writes, the log as it was otherwise; the mode is fixed from then
    on. *)
Definition after_debug (msg : string) (w : world H) : world H :=
  {| glog := if writes Options_debug w then glog w ++ [msg] else glog w;
     debug_ := Some (writes Options_debug w);
     host := host w |}.

Lemma debug_spec (msg : string) (w : world H) :
  debug Options_debug msg w = (after_debug msg w, Normal tt).
Proof.
  unfold debug, after_debug, writes. destruct w as [l [[|]|] h]; simpl.
  - reflexivity.
  - reflexivity.
  - destruct Options_debug; reflexivity.
Qed.

(** C8 (as the code has it). A record of a listed type whose control is not
    registered: the TypeError is caught, its message goes to [me.debug]
    (written to GLog when the logger writes, dropped when debugging is
    off), and the call returns [undefined] without throwing, the controls'
    own state untouched.  A later call for a type whose control is
    registered with its load method runs that method and returns its
    result. *)
Theorem createGeometry_missing_control
  (record : geo_record D) t control method (w : world H) :
  type record = Some t ->
  route t = Some (control, method) ->
  controls !! control = None ->
  let w1 := after_debug (failure_message (TypeError "me.controls[...] is undefined")) w in
  createGeometry_ Options_debug controls record w = (w1, Normal None) /\
  host w1 = host w /\
  (writes Options_debug w = false -> glog w1 = glog w) /\
  forall (record2 : geo_record D) t2 control2 method2
         (c : gmap string (geo_record D -> js (world H) V))
         (load : geo_record D -> js (world H) V) w2 v,
    type record2 = Some t2 ->
    route t2 = Some (control2, method2) ->
    controls !! control2 = Some c ->
    c !! method2 = Some load ->
    load record2 w1 = (w2, Normal v) ->
    createGeometry_ Options_debug controls record2 w1 = (w2, Normal (Some v)).
Proof.
  intros Ht Hr Hc w1. split; [|split; [reflexivity|split]].
  - rewrite (createGeometry_routed record t control method w Ht Hr).
    unfold try_catch, call_load. rewrite Hc. unfold bind at 1, throw.
    unfold bind. rewrite debug_spec. reflexivity.
  - intros Hw. subst w1. unfold after_debug. rewrite Hw. reflexivity.
  - intros record2 t2 control2 method2 c load w2 v Ht2 Hr2 Hc2 Hm2 Hload.
    rewrite (createGeometry_routed record2 t2 control2 method2 w1 Ht2 Hr2).
    unfold try_catch, call_load. rewrite Hc2. cbv beta iota. rewrite Hm2.
    rewrite (bind_normal _ _ _ _ _ Hload). reflexivity.
Qed.

(** C10. A record whose type is none of point, line, poly falls through
    the switch: [undefined] is returned, nothing is thrown, and the world is
    left exactly as it was (no load method ran, nothing was logged, the
    logger was not even initialised). *)
Theorem createGeometry_unknown_type (record : geo_record D) (w : world H) :
  type record <> Some "point" ->
  type record <> Some "line" ->
  type record <> Some "poly" ->
  createGeometry_ Options_debug controls record w = (w, Normal None).
Proof.
  intros Hp Hl Hy. unfold createGeometry_, try_catch.
  destruct (type record) as [t|]; [|reflexivity].
  destruct (String.eqb_spec t "point") as [->|_]; [congruence|].
  destruct (String.eqb_spec t "line") as [->|_]; [congruence|].
  destruct (String.eqb_spec t "poly") as [->|_]; [congruence|].
  reflexivity.
Qed.

End DispatchFacts.

(** Only the marker control is registered; it keeps the titles it loaded. *)
Module DispatchExample.
Import Dispatch.

Definition loadMarkers : geo_record string -> js (world (list string)) string :=
  fun record =>
    modify (fun w => {| glog := glog w; debug_ := debug_ w;
                        host := (host w ++ [data record])%list |}) ;;;
    ret ("marker " ++ data record).

Definition example_controls
  : gmap string (gmap string (geo_record string -> js (world (list string)) string)) :=
  {[ "markerControl" := {[ "loadMarkers" := loadMarkers ]} ]}.

Definition road : geo_record string := {| type := Some "line"; data := "road" |}.
Definition well : geo_record string := {| type := Some "point"; data := "well" |}.
Definition ring : geo_record string := {| type := Some "circle"; data := "ring" |}.

Definition fresh : world (list string) := {| glog := []; debug_ := None; host := [] |}.

Definition road_failure : string :=
  failure_message (TypeError "me.controls[...] is undefined").

End DispatchExample.

Lemma createGeometry_missing_control_witness :
  Dispatch.type DispatchExample.road = Some "line" /\
  Dispatch.route "line" = Some ("polylineControl", "loadPolylines") /\
  DispatchExample.example_controls !! "polylineControl" = None /\
  Dispatch.createGeometry_ true DispatchExample.example_controls DispatchExample.road
    DispatchExample.fresh
  = ({| Dispatch.glog := [DispatchExample.road_failure];
        Dispatch.debug_ := Some true;
        Dispatch.host := [] |}, Normal None) /\
  Dispatch.createGeometry_ true DispatchExample.example_controls DispatchExample.well
    {| Dispatch.glog := [DispatchExample.road_failure];
       Dispatch.debug_ := Some true;
       Dispatch.host := [] |}
  = ({| Dispatch.glog := [DispatchExample.road_failure];
        Dispatch.debug_ := Some true;
        Dispatch.host := ["well"] |}, Normal (Some "marker well")).
Proof.
  pose proof (createGeometry_missing_control true DispatchExample.example_controls
                DispatchExample.road "line" "polylineControl" "loadPolylines"
                DispatchExample.fresh eq_refl eq_refl eq_refl) as (Hfirst & _ & _ & Hnext).
  split; [reflexivity|]. split; [reflexivity|]. split; [reflexivity|]. split.
  - exact Hfirst.
  - exact (Hnext DispatchExample.well "point" "markerControl" "loadMarkers"
             {[ "loadMarkers" := DispatchExample.loadMarkers ]} DispatchExample.loadMarkers
             _ _ eq_refl eq_refl eq_refl eq_refl eq_refl).
Defined.

(** C8 as stated fails: with debugging switched off the same failing call
    writes nothing (it still returns [undefined] without throwing). *)
Lemma createGeometry_missing_control_silent :
  DispatchExample.example_controls !! "polylineControl" = None /\
  Dispatch.createGeometry_ false DispatchExample.example_controls DispatchExample.road
    DispatchExample.fresh
  = ({| Dispatch.glog := []; Dispatch.debug_ := Some false; Dispatch.host := [] |},
     Normal None) /\
  ~ In DispatchExample.road_failure
       (Dispatch.glog (fst (Dispatch.createGeometry_ false DispatchExample.example_controls
                              DispatchExample.road DispatchExample.fresh))).
Proof.
  split; [reflexivity|]. split; [reflexivity|]. intros [].
Qed.

Lemma createGeometry_unknown_type_witness :
  Dispatch.type DispatchExample.ring <> Some "point" /\
  Dispatch.createGeometry_ true DispatchExample.example_controls DispatchExample.ring
    DispatchExample.fresh
  = (DispatchExample.fresh, Normal None).
Proof.
  split; [discriminate|].
  exact (createGeometry_unknown_type true DispatchExample.example_controls
           DispatchExample.ring DispatchExample.fresh
           ltac:(discriminate) ltac:(discriminate) ltac:(discriminate)).
Defined.

(* ===================================================================== *)
(** ** addAutoSaveAspect (lines 295-315) *)
(* ===================================================================== *)

(** Here the advice itself assigns members of [me] and of [geomInfo] while a
    call is running, so function values sit in the store.  They are kept
    there as codes, one constructor for each function that can reach a slot,
    and [call] gives a code its meaning; the two wrappers get theirs from
    [Aop.link_before] and [Aop.link_after]. *)
Module AutoSave.

(** [this] of a call. *)
Inductive receiver : Type :=
| Me
| Info (g : nat)
| NoReceiver.

(** Values passed around: references to [geomInfo] objects and the options
    object [{allData, geomInfo}] built for [saveData]. *)
Inductive value : Type :=
| Undefined
| Ref (g : nat)
| Opts (allData : bool) (g : nat).

(** The before advice of lines 298-314. *)
Inductive before_code : Type :=
| BindAdvice.

(** The after advice of lines 306-312, closed over its [geomInfo]. *)
Inductive after_code : Type :=
| SaveAdvice (g : nat).

#[warnings="-register-all"]
Inductive fn : Type :=
| Host (name : string)     (* a function of the application: the binder, a commit callback *)
| SaveData                 (* GeometryControls.prototype.saveData *)
| Forward                  (* [function(){ me.autoSaveListener(); }], lines 302-304 *)
| WrapBefore (before : before_code) (orig : option fn)
| WrapAfter (after : after_code) (orig : option fn).

Inductive event : Type :=
| Called (name : string) (this : receiver) (args : list value)
| Did (e : Persist.effect Z).

(** [me]: the function-valued members of the coordinator;
    [commitStyling], [info]: the [commitStyling] member and the data
    ([index], [storage]) of each [geomInfo] object; [out]: what reached the
    application and the network, in order. *)
Record store : Type := {
  me : gmap string fn;
  commitStyling : gmap nat fn;
  info : gmap nat (Persist.GeomInfo Z);
  out : list event
}.

Definition emit (e : event) (s : store) : store :=
  {| me := me s; commitStyling := commitStyling s; info := info s;
     out := out s ++ [e] |}.

Definition set_me (f : gmap string fn -> gmap string fn) (s : store) : store :=
  {| me := f (me s); commitStyling := commitStyling s; info := info s; out := out s |}.

Definition set_commitStyling (g : nat) (f : fn) (s : store) : store :=
  {| me := me s; commitStyling := <[g := f]> (commitStyling s); info := info s;
     out := out s |}.

(** [obj.member = v] where [v] may be [undefined]. *)
Definition assign (member : string) (v : option fn) (obj : gmap string fn) : gmap string fn :=
  match v with
  | Some f => <[member := f]> obj
  | None => delete member obj
  end.

(** The engine gives up on a call nested deeper than its stack allows. *)
Definition RangeError : js_error :=
  {| err_text := "RangeError: too much recursion";
     err_lineNumber := "undefined"; err_fileName := "undefined" |}.

(** [saveData(opts)] on the data of the [geomInfo] object [opts] refers to. *)
Definition saveData (args : list value) : js store value :=
  match args with
  | Opts allData g :: _ =>
      fun s =>
        match info s !! g with
        | Some gi =>
            (Persist.saveData pretty (fun e => emit (Did e))
               {| Persist.allData := allData; Persist.geomInfo := gi |} ;;;
             ret Undefined) s
        | None => (s, Throw (TypeError "opts.geomInfo has no storage"))
        end
  | _ => throw (TypeError "opts.geomInfo is undefined")
  end.

(** The body of the before advice (lines 299-313), for [args[0]] the
    [geomInfo] object [g]. *)
Definition bind_session (g : nat) : js store unit :=
  (* me.autoSaveListener = geomInfo.commitStyling; *)
  modify (fun s => set_me (assign "autoSaveListener" (commitStyling s !! g)) s) ;;;
  (* geomInfo.commitStyling = function(){ me.autoSaveListener(); }; *)
  modify (set_commitStyling g Forward) ;;;
  (* me.aop.addAfter(me, 'autoSaveListener', function(){ me.saveData(...) }); *)
  modify (set_me (fun o =>
    Aop.process_ o (Aop.Name "autoSaveListener") (WrapAfter (SaveAdvice g)))).

(** [call depth f this args]: the function [f] applied, with room for
    [depth] nested calls. *)
Fixpoint call (depth : nat) (f : fn) : Aop.jsfun store receiver value :=
  match depth with
  | O => fun _ _ => throw RangeError
  | S d =>
      match f with
      | Host name =>
          fun this args => (modify (emit (Called name this args)) ;;; ret Undefined)
      | SaveData => fun _ args => saveData args
      | Forward =>
          fun _ _ s =>
            match me s !! "autoSaveListener" with
            | Some listener => (call d listener Me [] ;;; ret Undefined) s
            | None => (s, Throw (TypeError "me.autoSaveListener is not a function"))
            end
      | WrapBefore BindAdvice orig =>
          Aop.link_before
            (fun args _ _ =>
               match args with
               | Ref g :: _ => (bind_session g ;;; ret args)
               | _ => throw (TypeError "geomInfo is undefined")
               end)
            (call d <$> orig)
      | WrapAfter (SaveAdvice g) orig =>
          Aop.link_after
            (fun _ _ _ _ => (call d SaveData Me [Opts false g] ;;; ret Undefined))
            (call d <$> orig)
      end
  end.

(** [GeometryControls.prototype.addAutoSaveAspect] *)
Definition addAutoSaveAspect (s : store) : store :=
  set_me (fun o => Aop.process_ o (Aop.Name "bindInfoWindow") (WrapBefore BindAdvice)) s.

(** [me.member(args)] *)
Definition call_me (depth : nat) (member : string) (args : list value) : js store value :=
  fun s =>
    match me s !! member with
    | Some f => call depth f Me args s
    | None => (s, Throw (TypeError "me.member is not a function"))
    end.

(** [geomInfo.commitStyling()] on the [geomInfo] object [g]. *)
Definition commit (depth : nat) (g : nat) : js store value :=
  fun s =>
    match commitStyling s !! g with
    | Some f => call depth f (Info g) [] s
    | None => (s, Throw (TypeError "geomInfo.commitStyling is not a function"))
    end.

(** One persistence dispatch for the [geomInfo] object [g]:
    [me.saveData({allData: false, geomInfo: geomInfo})]. *)
Definition dispatch (g : nat) : js store value := saveData [Opts false g].

End AutoSave.

(* --------------------------------------------------------------------- *)
(** *** Properties of the autosave aspect *)
(* --------------------------------------------------------------------- *)

Section AutoSaveFacts.
Import AutoSave.

(** [saveData] touches nothing but the output. *)
Lemma saveData_frame (args : list value) (s : store) :
  let s' := fst (saveData args s) in
  me s' = me s /\ commitStyling s' = commitStyling s /\ info s' = info s.
Proof.
  destruct args as [|[| |allData g] args]; simpl; try (repeat split; reflexivity).
  unfold saveData. destruct (info s !! g) as [gi|]; [|repeat split; reflexivity].
  unfold bind.
  destruct (Persist.storage gi !! Persist.index gi) as [record|] eqn:Hrec.
  - rewrite (saveData_run pretty (fun e => emit (Did e))
               {| Persist.allData := allData; Persist.geomInfo := gi |} record s Hrec).
    repeat split; reflexivity.
  - rewrite (saveData_no_record pretty (fun e => emit (Did e))
               {| Persist.allData := allData; Persist.geomInfo := gi |} s Hrec).
    repeat split; reflexivity.
Qed.

(** What binding a session leaves in the slots. *)
Definition bound (g : nat) (c binder : string) (s : store) : store :=
  emit (Called binder Me [Ref g])
    {| me := <["autoSaveListener" := WrapAfter (SaveAdvice g) (Some (Host c))]>
               (<["autoSaveListener" := Host c]> (me s));
       commitStyling := <[g := Forward]> (commitStyling s);
       info := info s;
       out := out s |}.

Lemma bindInfoWindow_run depth s g binder c :
  2 <= depth ->
  me s !! "bindInfoWindow" = Some (WrapBefore BindAdvice (Some (Host binder))) ->
  commitStyling s !! g = Some (Host c) ->
  call_me depth "bindInfoWindow" [Ref g] s = (bound g c binder s, Normal Undefined).
Proof.
  intros Hd Hb Hc. destruct depth as [|[|d]]; [lia|lia|].
  unfold call_me. rewrite Hb. cbn [call fmap option_fmap option_map].
  unfold Aop.link_before, bind_session, bind, modify, set_me, set_commitStyling.
  cbn [me commitStyling info out]. rewrite Hc.
  unfold ret, bound, Aop.process_, Aop.attach_, assign. cbv beta iota zeta.
  rewrite lookup_insert_eq. reflexivity.
Qed.

(** A commit through a forwarded [commitStyling] runs whatever the listener
    slot holds at that moment. *)
Lemma commit_run depth s g g' c' :
  3 <= depth ->
  commitStyling s !! g = Some Forward ->
  me s !! "autoSaveListener" = Some (WrapAfter (SaveAdvice g') (Some (Host c'))) ->
  commit depth g s
  = (modify (emit (Called c' Me [])) ;;; dispatch g' ;;; ret Undefined) s.
Proof.
  intros Hd Hf Hl. destruct depth as [|[|[|d]]]; [lia|lia|lia|].
  unfold commit. rewrite Hf. cbn [call]. rewrite Hl.
  cbn [call fmap option_fmap option_map].
  unfold Aop.link_after, Aop.apply_, dispatch, bind, modify, ret.
  destruct (saveData [Opts false g'] (emit (Called c' Me []) s)) as [s' [v|e]]; reflexivity.
Qed.

End AutoSaveFacts.

Section AutoSaveClaims.
Import AutoSave.

(** C6 (as the code has it). With the aspect installed over the binder,
    bind a session [g] whose [commitStyling] is still the control's own
    callback [c].  The bind returns normally, and from then on, for as long
    as no other session is bound (the listener slot and [g]'s
    [commitStyling] are what the bind left), every [geomInfo.commitStyling()]
    runs [c] once, then [saveData] once with [g]'s [geomInfo], and leaves the
    slots as they were, so the next commit does the same; when the record is
    in storage the commit adds to the output the call of [c], the log of the
    id and exactly one request, the one for that record. *)
Theorem commit_dispatches_once depth s g binder c :
  3 <= depth ->
  me s !! "bindInfoWindow" = Some (WrapBefore BindAdvice (Some (Host binder))) ->
  commitStyling s !! g = Some (Host c) ->
  exists s1,
    call_me depth "bindInfoWindow" [Ref g] s = (s1, Normal Undefined) /\
    forall s2,
      me s2 !! "autoSaveListener" = me s1 !! "autoSaveListener" ->
      commitStyling s2 !! g = commitStyling s1 !! g ->
      commit depth g s2
      = (modify (emit (Called c Me [])) ;;; dispatch g ;;; ret Undefined) s2 /\
      me (fst (commit depth g s2)) = me s2 /\
      commitStyling (fst (commit depth g s2)) = commitStyling s2 /\
      forall gi record,
        info s2 !! g = Some gi ->
        Persist.storage gi !! Persist.index gi = Some record ->
        commit depth g s2
        = (emit (Did (Persist.request pretty record))
             (emit (Did (Persist.ConsoleLog (Persist.of_option (Persist.id record))))
                (emit (Called c Me []) s2)), Normal Undefined).
Proof.
  intros Hd Hb Hc. exists (bound g c binder s).
  split; [apply bindInfoWindow_run; [lia|assumption..]|].
  intros s2 Hl Hf.
  assert (Hrun : commit depth g s2
                 = (modify (emit (Called c Me [])) ;;; dispatch g ;;; ret Undefined) s2).
  { apply commit_run; [assumption| |].
    - rewrite Hf. simpl. apply lookup_insert_eq.
    - rewrite Hl. simpl. apply lookup_insert_eq. }
  split; [exact Hrun|]. rewrite Hrun.
  pose proof (saveData_frame [Opts false g] (emit (Called c Me []) s2)) as (Hme & Hcs & _).
  split; [|split].
  - unfold bind, modify, dispatch, ret.
    destruct (saveData [Opts false g] (emit (Called c Me []) s2)) as [s' [v|e]];
      simpl in *; assumption.
  - unfold bind, modify, dispatch, ret.
    destruct (saveData [Opts false g] (emit (Called c Me []) s2)) as [s' [v|e]];
      simpl in *; assumption.
  - intros gi record Hgi Hrec.
    unfold bind at 1. unfold modify at 1. unfold bind at 1, dispatch, saveData.
    cbn [info emit]. rewrite Hgi. unfold bind at 1.
    rewrite (saveData_run pretty (fun e => emit (Did e))
               {| Persist.allData := false; Persist.geomInfo := gi |} record _ Hrec).
    reflexivity.
Qed.

End AutoSaveClaims.

(** Two editing sessions over the same storage: lot A (not stored yet) and
    lot B (stored under id 7), each with its own commit callback. *)
Module AutoSaveExample.
Import AutoSave.

Definition lot_a : Persist.Geometry Z :=
  {| Persist.type := "poly";
     Persist.geometry := [ {| Persist.lat := 1; Persist.lng := 2 |} ]%Z;
     Persist.title := ["Lot A"; ""];
     Persist.id := None |}.

Definition lot_b : Persist.Geometry Z :=
  {| Persist.type := "poly";
     Persist.geometry := [ {| Persist.lat := 5; Persist.lng := 6 |} ]%Z;
     Persist.title := ["Lot B"; ""];
     Persist.id := Some "7" |}.

Definition constructed : store :=
  addAutoSaveAspect
    {| me := {[ "bindInfoWindow" := Host "bindInfoWindow" ]};
       commitStyling := {[ 1 := Host "commitA"; 2 := Host "commitB" ]};
       info := {[ 1 := {| Persist.index := 0; Persist.storage := [lot_a; lot_b] |};
                  2 := {| Persist.index := 1; Persist.storage := [lot_a; lot_b] |} ]};
       out := [] |}.

Definition after (m : js store value) (s : store) : store := fst (m s).

Definition bound_a : store := after (call_me 10 "bindInfoWindow" [Ref 1]) constructed.
Definition bound_a_then_b : store := after (call_me 10 "bindInfoWindow" [Ref 2]) bound_a.

End AutoSaveExample.

Lemma commit_dispatches_once_witness :
  3 <= 10 /\
  AutoSave.me AutoSaveExample.constructed !! "bindInfoWindow"
  = Some (AutoSave.WrapBefore AutoSave.BindAdvice (Some (AutoSave.Host "bindInfoWindow"))) /\
  AutoSave.commitStyling AutoSaveExample.constructed !! 1 = Some (AutoSave.Host "commitA") /\
  exists s1,
    AutoSave.call_me 10 "bindInfoWindow" [AutoSave.Ref 1] AutoSaveExample.constructed
    = (s1, Normal AutoSave.Undefined) /\
    AutoSave.commit 10 1 s1
    = (modify (AutoSave.emit (AutoSave.Called "commitA" AutoSave.Me [])) ;;;
       AutoSave.dispatch 1 ;;; ret AutoSave.Undefined) s1.
Proof.
  assert (Hd : 3 <= 10) by lia.
  split; [exact Hd|]. split; [reflexivity|]. split; [reflexivity|].
  destruct (commit_dispatches_once 10 AutoSaveExample.constructed 1 "bindInfoWindow"
              "commitA" Hd eq_refl eq_refl) as (s1 & Hbind & Hcommit).
  exists s1. split; [exact Hbind|].
  exact (proj1 (Hcommit s1 eq_refl eq_refl)).
Defined.

(** Session A bound, then committed twice: each commit calls A's callback
    and posts lot A once. *)
Example latest_session_commits :
  let s := AutoSaveExample.after (AutoSave.commit 10 1)
             (AutoSaveExample.after (AutoSave.commit 10 1) AutoSaveExample.bound_a) in
  AutoSave.out s
  = [AutoSave.Called "bindInfoWindow" AutoSave.Me [AutoSave.Ref 1];
     AutoSave.Called "commitA" AutoSave.Me [];
     AutoSave.Did (Persist.ConsoleLog Persist.VUndefined);
     AutoSave.Did (Persist.request pretty AutoSaveExample.lot_a);
     AutoSave.Called "commitA" AutoSave.Me [];
     AutoSave.Did (Persist.ConsoleLog Persist.VUndefined);
     AutoSave.Did (Persist.request pretty AutoSaveExample.lot_a)].
Proof. vm_compute. reflexivity. Qed.

(** C6 as stated fails for a session that is no longer the last one bound:
    with A bound and then B, a commit through A's [commitStyling] calls B's
    callback and saves B's [geomInfo]; A's callback is not called and lot A
    is not posted. *)
Lemma stale_session_commit_saves_latest :
  let s := AutoSaveExample.bound_a_then_b in
  let s' := AutoSaveExample.after (AutoSave.commit 10 1) s in
  AutoSave.commitStyling s !! 1 = Some AutoSave.Forward /\
  AutoSave.out s' = (AutoSave.out s ++
    [AutoSave.Called "commitB" AutoSave.Me [];
     AutoSave.Did (Persist.ConsoleLog (Persist.VStr "7"));
     AutoSave.Did (Persist.request pretty AutoSaveExample.lot_b)])%list /\
  ~ In (AutoSave.Did (Persist.request pretty AutoSaveExample.lot_a)) (AutoSave.out s') /\
  AutoSave.commit 10 1 s
  <> (modify (AutoSave.emit (AutoSave.Called "commitA" AutoSave.Me [])) ;;;
      AutoSave.dispatch 1 ;;; ret AutoSave.Undefined) s.
Proof.
  vm_compute. split; [reflexivity|]. split; [reflexivity|]. split.
  - intros [H|[H|[H|[H|[H|[]]]]]]; discriminate H.
  - intros H; discriminate H.
Qed.

(* ===================================================================== *)
(** ** Further properties of the advice engine *)
(* ===================================================================== *)

Section AopMore.
Import Aop.
Context {W R V : Type}.
Implicit Types (obj : gmap string (jsfun W R V)) (m : string) (r : R) (xs : list V).


(** X1. Two before-advices on one member: the one attached last runs first
    on the caller's arguments, the earlier one runs on what it returned, and
    the original is applied to the list the earlier one returned. *)
Theorem addBefore_twice_composes obj m orig (A B : before_advice W R V) r xs :
  obj !! m = Some orig ->
  forall w,
    invoke (addBefore (addBefore obj (Name m) A) (Name m) B) m r xs w
    = (ys <- B xs (Some (link_before A (Some orig))) r ;;
       zs <- A ys (Some orig) r ;;
       orig r zs) w.
Proof.
  intros Hm w. unfold addBefore, process_.
  rewrite invoke_attach, attach_lookup, Hm. reflexivity.
Qed.

(** X2. An exception stops the chain where it is raised: when the before
    advice throws, the original is not run and the call throws that error in
    the state the advice left; when the original throws, the after advice is
    not run and the call throws the original's error in the state the
    original left. *)
Theorem advice_chain_stops_at_throw obj m orig
  (before : before_advice W R V) (after : after_advice W R V) r xs w w' e :
  obj !! m = Some orig ->
  (before xs (Some orig) r w = (w', Throw e) ->
   invoke (addBefore obj (Name m) before) m r xs w = (w', Throw e)) /\
  (orig r xs w = (w', Throw e) ->
   invoke (addAfter obj (Name m) after) m r xs w = (w', Throw e)).
Proof.
  intros Hm. unfold addBefore, addAfter, process_. split; intros Hthrow.
  - rewrite invoke_attach, Hm. unfold link_before.
    now apply bind_throw.
  - rewrite invoke_attach, Hm. unfold link_after, apply_.
    now apply bind_throw.
Qed.

(** X3. Attaching by name to a member the object does not have creates the
    member.  With before or after advice every call of it throws a TypeError
    with the state untouched (the advice is never run); with around advice
    the advice runs and is handed an undefined original. *)
Theorem attach_to_missing_member obj m
  (before : before_advice W R V) (after : after_advice W R V)
  (around : around_advice W R V) r xs w :
  obj !! m = None ->
  is_Some (addBefore obj (Name m) before !! m) /\
  invoke (addBefore obj (Name m) before) m r xs w
  = (w, Throw (TypeError "orig is undefined")) /\
  invoke (addAfter obj (Name m) after) m r xs w
  = (w, Throw (TypeError "orig is undefined")) /\
  invoke (addAround obj (Name m) around) m r xs w = around xs None r w.
Proof.
  intros Hm. unfold addBefore, addAfter, addAround, process_.
  split; [rewrite attach_lookup; eauto|].
  rewrite !invoke_attach, Hm. repeat split.
Qed.


(** X5. Before and after advice on one member do not commute.  Attached
    before-then-after, the after advice is handed the caller's arguments;
    attached after-then-before, it is handed the arguments as rewritten by
    the before advice.  In both orders the original runs on the rewritten
    arguments and the after advice decides the result. *)
Theorem before_after_order_matters obj m orig
  (before : before_advice W R V) (after : after_advice W R V) r xs :
  obj !! m = Some orig ->
  (forall w,
     invoke (addAfter (addBefore obj (Name m) before) (Name m) after) m r xs w
     = (ys <- before xs (Some orig) r ;;
        v <- orig r ys ;;
        after v xs (Some (link_before before (Some orig))) r) w) /\
  (forall w,
     invoke (addBefore (addAfter obj (Name m) after) (Name m) before) m r xs w
     = (ys <- before xs (Some (link_after after (Some orig))) r ;;
        v <- orig r ys ;;
        after v ys (Some orig) r) w).
Proof.
  intros Hm. unfold addBefore, addAfter, process_. split; intros w.
  - rewrite invoke_attach, attach_lookup, Hm.
    unfold link_after at 1. unfold apply_, link_before at 1.
    rewrite bind_assoc. reflexivity.
  - rewrite invoke_attach, attach_lookup, Hm. reflexivity.
Qed.

End AopMore.

(** Advice for the runs below: [failing] throws at once, [sumArgs] is an
    after advice that adds up the arguments it is handed. *)
Module AopExample2.
Import Aop.

Definition boom : js_error :=
  {| err_text := "Error: boom"; err_lineNumber := "1"; err_fileName := "test.js" |}.

Definition failing : before_advice (list string) string Z :=
  fun _ _ this => (AopExample.log ("failing@" ++ this) ;;; throw boom).

Definition sumArgs : after_advice (list string) string Z :=
  fun result args _ this =>
    (AopExample.log ("after@" ++ this) ;;; ret (result + foldr Z.add 0 args)%Z).

End AopExample2.

Lemma addBefore_twice_composes_witness :
  AopExample.example_obj !! "m" = Some AopExample.original /\
  Aop.invoke (Aop.addBefore (Aop.addBefore AopExample.example_obj (Aop.Name "m")
                               AopExample.doubleArgs) (Aop.Name "m") AopExample.doubleArgs)
             "m" "obj" [3; 4]%Z []
  = (["before@obj"; "before@obj"; "orig@obj"], Normal 29%Z).
Proof.
  split; [reflexivity|].
  rewrite (addBefore_twice_composes AopExample.example_obj "m" AopExample.original
             AopExample.doubleArgs AopExample.doubleArgs "obj" [3; 4]%Z eq_refl).
  reflexivity.
Defined.

Lemma advice_chain_stops_at_throw_witness :
  AopExample.example_obj !! "m" = Some AopExample.original /\
  Aop.invoke (Aop.addBefore AopExample.example_obj (Aop.Name "m") AopExample2.failing)
             "m" "obj" [3]%Z []
  = (["failing@obj"], Throw AopExample2.boom).
Proof.
  split; [reflexivity|].
  exact (proj1 (advice_chain_stops_at_throw AopExample.example_obj "m" AopExample.original
                  AopExample2.failing AopExample.adviceA "obj" [3]%Z []
                  ["failing@obj"] AopExample2.boom eq_refl) eq_refl).
Defined.

Lemma attach_to_missing_member_witness :
  AopExample.example_obj !! "absent" = None /\
  Aop.invoke (Aop.addAfter AopExample.example_obj (Aop.Name "absent") AopExample.adviceA)
             "absent" "obj" [] []
  = ([], Throw (TypeError "orig is undefined")).
Proof.
  split; [reflexivity|].
  exact (proj1 (proj2 (proj2 (attach_to_missing_member AopExample.example_obj "absent"
                  AopExample.doubleArgs AopExample.adviceA AopExample.skipOriginal
                  "obj" [] [] eq_refl)))).
Defined.

Lemma before_after_order_matters_witness :
  AopExample.example_obj !! "m" = Some AopExample.original /\
  Aop.invoke (Aop.addAfter (Aop.addBefore AopExample.example_obj (Aop.Name "m")
                              AopExample.doubleArgs) (Aop.Name "m") AopExample2.sumArgs)
             "m" "obj" [3; 4]%Z []
  = (["before@obj"; "orig@obj"; "after@obj"], Normal 22%Z) /\
  Aop.invoke (Aop.addBefore (Aop.addAfter AopExample.example_obj (Aop.Name "m")
                               AopExample2.sumArgs) (Aop.Name "m") AopExample.doubleArgs)
             "m" "obj" [3; 4]%Z []
  = (["before@obj"; "orig@obj"; "after@obj"], Normal 29%Z).
Proof.
  split; [reflexivity|].
  destruct (before_after_order_matters AopExample.example_obj "m" AopExample.original
              AopExample.doubleArgs AopExample2.sumArgs "obj" [3; 4]%Z eq_refl)
    as [Hba Hab].
  split; [rewrite Hba|rewrite Hab]; reflexivity.
Defined.

(* ===================================================================== *)
(** ** Further properties of the buttons *)
(* ===================================================================== *)

Module ToggleMore.
Import Toggle.
Section Order.
Context {H : Type}.

(** The stop calls of lines 210-214 written out: each registered function
    other than [name]'s, in enumeration order, with [false]. *)
Fixpoint stop_each (name : string) (funcs : list (string * stop_fn H))
  : js (world H) unit :=
  match funcs with
  | [] => ret tt
  | (n, stop) :: rest =>
      if String.eqb n name then stop_each name rest
      else (stop (Some false) ;;; stop_each name rest)
  end.

End Order.
End ToggleMore.

Section ToggleMoreFacts.
Import Toggle ToggleMore.
Context {H : Type}.
Implicit Types (w : world H) (funcs : list (string * stop_fn H)) (b : button).

Lemma truthy_name (name : string) : name <> "" -> truthy (Some name) = true.
Proof.
  intros Hne. simpl. destruct (String.eqb_spec name ""); [contradiction|reflexivity].
Qed.

Lemma assoc_NoDup {A} (o : list (string * A)) k v :
  NoDup (map fst o) -> In (k, v) o -> assoc o k = Some v.
Proof.
  induction o as [|[k' v'] o IH]; simpl; intros Hnd Hin; [contradiction|].
  apply NoDup_cons in Hnd as [Hnotin Hnd].
  destruct Hin as [E|Hin].
  - injection E as -> ->. now rewrite String.eqb_refl.
  - destruct (String.eqb_spec k' k) as [->|_]; [|now apply IH].
    exfalso. apply Hnotin. apply list_elem_of_In.
    apply (in_map fst) in Hin. exact Hin.
Qed.

Lemma for_in_stop_each (all rest : list (string * stop_fn H)) name w :
  (forall k v, In (k, v) rest -> assoc all k = Some v) ->
  for_in rest (fun func =>
      if negb (String.eqb func name) then
        match assoc all func with
        | Some stop => stop (Some false)
        | None => throw (TypeError "stopDigitizingFuncs_[func] is not a function")
        end
      else ret tt) w
  = stop_each name rest w.
Proof.
  revert w. induction rest as [|[k v] rest IH]; intros w Hall; simpl; [reflexivity|].
  rewrite (Hall k v) by now left.
  assert (IH' : forall w', for_in rest (fun func =>
      if negb (String.eqb func name) then
        match assoc all func with
        | Some stop => stop (Some false)
        | None => throw (TypeError "stopDigitizingFuncs_[func] is not a function")
        end
      else ret tt) w' = stop_each name rest w').
  { intros w'. apply IH. intros k' v' Hin. apply Hall. now right. }
  destruct (String.eqb k name); simpl.
  - apply IH'.
  - unfold bind.
    destruct (v (Some false) w) as [w' [[]|e]]; [apply IH'|reflexivity].
Qed.

(** X6. [toggleButtons] with a non-empty name that no button is registered
    under throws a TypeError; by then every button has been given its up
    image, and no stop function is called (the tools' state is untouched,
    whatever functions are registered). *)
Theorem toggleButtons_unregistered funcs name w :
  name <> "" ->
  buttons_ w !! name = None ->
  toggleButtons funcs (Some name) w
  = ({| buttons_ := all_up (buttons_ w); host := host w |},
     Throw (TypeError "me.buttons_[button_name] is undefined")).
Proof.
  intros Hne Hb. unfold toggleButtons. rewrite (truthy_name name Hne).
  unfold bind at 1. unfold modify. unfold bind at 1. unfold press.
  simpl. unfold all_up at 1. rewrite lookup_fmap, Hb. reflexivity.
Qed.

Lemma all_up_pressed (bs : gmap string button) name b :
  bs !! name = Some b ->
  <[name := pressed (pressed b)]> (all_up (<[name := pressed b]> (all_up bs)))
  = <[name := pressed b]> (all_up bs).
Proof.
  intros Hb. apply map_eq. intros k. destruct (decide (k = name)) as [->|Hk].
  - rewrite !lookup_insert_eq. reflexivity.
  - rewrite !lookup_insert_ne by congruence. unfold all_up.
    rewrite !lookup_fmap, lookup_insert_ne by congruence. rewrite lookup_fmap.
    destruct (bs !! k); reflexivity.
Qed.

(** X7. [toggleButtons(name)] does not toggle: called again for the tool it
    has just pressed it leaves the buttons exactly as they are, the named
    button still on its down image (it is the click listener's stop branch,
    not this function, that can put the button back up). *)
Theorem toggleButtons_again_keeps_pressed funcs name w b :
  name <> "" ->
  buttons_ w !! name = Some b ->
  (forall n f, In (n, f) funcs -> n <> name -> keeps_buttons (f (Some false))) ->
  exists w1 w2,
    toggleButtons funcs (Some name) w = (w1, Normal tt) /\
    toggleButtons funcs (Some name) w1 = (w2, Normal tt) /\
    buttons_ w2 = buttons_ w1 /\
    shows_down w2 name.
Proof.
  intros Hne Hb Hf.
  destruct (toggleButtons_named funcs name w b Hne Hb Hf) as (w1 & E1 & B1).
  assert (Hb1 : buttons_ w1 !! name = Some (pressed b)).
  { rewrite B1. apply lookup_insert_eq. }
  destruct (toggleButtons_named funcs name w1 (pressed b) Hne Hb1 Hf) as (w2 & E2 & B2).
  exists w1, w2. split; [exact E1|]. split; [exact E2|].
  assert (B21 : buttons_ w2 = buttons_ w1).
  { rewrite B2, B1. now apply all_up_pressed. }
  split; [exact B21|].
  exists (pressed b). rewrite B21, Hb1. split; reflexivity.
Qed.

(** X8. The stop calls of [toggleButtons(name)]: with the registered names
    distinct, the call is the image loop, the press of [name], and then each
    registered stop function other than [name]'s own called once with
    [false], in enumeration order; [name]'s own stop function is never
    called, and a stop function that throws ends the loop there. *)
Theorem toggleButtons_stops_others_in_order funcs name w :
  name <> "" ->
  NoDup (map fst funcs) ->
  toggleButtons funcs (Some name) w
  = (modify (set_buttons all_up) ;;; press name ;;; stop_each name funcs) w.
Proof.
  intros Hne Hnd. unfold toggleButtons. rewrite (truthy_name name Hne). simpl default.
  unfold bind, modify.
  destruct (press name (set_buttons all_up w)) as [w1 [[]|e]]; [|reflexivity].
  apply for_in_stop_each. intros k v Hin. now apply assoc_NoDup.
Qed.





End ToggleMoreFacts.

Lemma toggleButtons_unregistered_witness :
  "polylineControl" <> "" /\
  Toggle.buttons_ ToggleExample.spy_world !! "polylineControl" = None /\
  Toggle.toggleButtons ToggleExample.spy_funcs (Some "polylineControl")
    ToggleExample.spy_world
  = ({| Toggle.buttons_ := Toggle.all_up (Toggle.buttons_ ToggleExample.spy_world);
        Toggle.host := [] |},
     Throw (TypeError "me.buttons_[button_name] is undefined")).
Proof.
  split; [discriminate|]. split; [reflexivity|].
  exact (toggleButtons_unregistered ToggleExample.spy_funcs "polylineControl"
           ToggleExample.spy_world ltac:(discriminate) eq_refl).
Defined.

Lemma toggleButtons_again_keeps_pressed_witness :
  Toggle.buttons_ ToggleExample.spy_world !! "markerControl"
  = Some {| Toggle.opts := ToggleExample.marker_opts; Toggle.img_src := "marker_up.png" |} /\
  exists w1 w2,
    Toggle.toggleButtons ToggleExample.spy_funcs (Some "markerControl")
      ToggleExample.spy_world = (w1, Normal tt) /\
    Toggle.toggleButtons ToggleExample.spy_funcs (Some "markerControl") w1
    = (w2, Normal tt) /\
    Toggle.buttons_ w2 = Toggle.buttons_ w1 /\
    Toggle.shows_down w2 "markerControl".
Proof.
  split; [reflexivity|].
  exact (toggleButtons_again_keeps_pressed ToggleExample.spy_funcs "markerControl"
           ToggleExample.spy_world
           {| Toggle.opts := ToggleExample.marker_opts; Toggle.img_src := "marker_up.png" |}
           ltac:(discriminate) eq_refl
           (fun n f Hin _ => ToggleExample.spy_funcs_keep n f Hin)).
Defined.

Lemma toggleButtons_stops_others_in_order_witness :
  NoDup (map fst ToggleExample.spy_funcs) /\
  Toggle.toggleButtons ToggleExample.spy_funcs (Some "markerControl")
    ToggleExample.spy_world
  = (modify (Toggle.set_buttons Toggle.all_up) ;;; Toggle.press "markerControl" ;;;
     ToggleMore.stop_each "markerControl" ToggleExample.spy_funcs)
      ToggleExample.spy_world.
Proof.
  assert (Hnd : NoDup (map fst ToggleExample.spy_funcs)).
  { apply (bool_decide_unpack _). vm_compute. exact I. }
  split; [exact Hnd|].
  exact (toggleButtons_stops_others_in_order ToggleExample.spy_funcs "markerControl"
           ToggleExample.spy_world ltac:(discriminate) Hnd).
Defined.

(* ===================================================================== *)
(** ** addControl (lines 225-245) and more on debug and createGeometry_ *)
(* ===================================================================== *)

Module Controls.
Import Dispatch.
Section AddControl.
Context {H D V : Type}.

(** A geometry control as [addControl] and [createGeometry_] see it: its
    [name] and its methods.  ([control.zuper = me] hands the control the
    coordinator; here a method reaches the coordinator's state through the
    world it is run in.) *)
Record control : Type := {
  name : string;
  methods : gmap string (geo_record D -> js (world H) V)
}.

(** [addControl]: [me.controls[control.name] = control;] *)
Definition addControl (c : control)
  (controls : gmap string (gmap string (geo_record D -> js (world H) V)))
  : gmap string (gmap string (geo_record D -> js (world H) V)) :=
  <[name c := methods c]> controls.

End AddControl.
Arguments control : clear implicits.
End Controls.

Section DispatchMore.
Import Dispatch Controls.
Context {H D V : Type}.
Context (Options_debug : bool).
Implicit Types (controls : gmap string (gmap string (geo_record D -> js (world H) V)))
  (record : geo_record D) (w : world H).

(** X10. [debug] fixes its mode at its first call: once it has run, a later
    change of [Options.debug] has no effect on any later call; starting from
    the prototype's method, both messages are written when debugging was on
    at the first call and neither when it was off. *)
Theorem debug_mode_fixed_at_first_call (first later : bool) (msg1 msg2 : string) w :
  let w1 := fst (debug first msg1 w) in
  debug later msg2 w1 = debug first msg2 w1 /\
  (debug_ w = None ->
   glog (fst (debug later msg2 w1))
   = if first then (glog w ++ [msg1; msg2])%list else glog w).
Proof.
  cbv zeta. rewrite !debug_spec. cbn [fst]. split.
  - unfold debug, after_debug. cbn [debug_].
    destruct (writes first w); reflexivity.
  - intros Hfresh. unfold after_debug, writes. cbn [glog debug_].
    rewrite Hfresh. simpl. destruct first; simpl; [|reflexivity].
    rewrite <- app_assoc. reflexivity.
Qed.

Lemma route_cases (t : string) :
  route t = None \/ exists control method, route t = Some (control, method).
Proof.
  unfold route. destruct (String.eqb t "point"); [right; eauto|].
  destruct (String.eqb t "line"); [right; eauto|].
  destruct (String.eqb t "poly"); [right; eauto|]. now left.
Qed.

Lemma createGeometry_unrouted controls record t w :
  type record = Some t -> route t = None ->
  createGeometry_ Options_debug controls record w = (w, Normal None).
Proof.
  intros Ht Hr. unfold createGeometry_, route, try_catch in *. rewrite Ht.
  destruct (String.eqb t "point"); [discriminate|].
  destruct (String.eqb t "line"); [discriminate|].
  destruct (String.eqb t "poly"); [discriminate|]. reflexivity.
Qed.

(** The outcome for a listed type, by what the load call does. *)
Lemma createGeometry_listed controls record t control method w :
  type record = Some t ->
  route t = Some (control, method) ->
  createGeometry_ Options_debug controls record w
  = match call_load controls control method record w with
    | (w', Normal v) => (w', Normal (Some v))
    | (w', Throw e) => (after_debug Options_debug (failure_message e) w', Normal None)
    end.
Proof.
  intros Ht Hr. rewrite (createGeometry_routed _ _ record t control method w Ht Hr).
  unfold try_catch, bind.
  destruct (call_load controls control method record w) as [w' [v|e]]; [reflexivity|].
  rewrite debug_spec. reflexivity.
Qed.

(** X11. [createGeometry_] never throws: whatever the record, the
    registered controls and their load methods do (return, throw an error,
    be missing), the call returns normally, with [undefined] or with what the
    load method returned. *)
Theorem createGeometry_never_throws controls record w :
  exists w' result, createGeometry_ Options_debug controls record w = (w', Normal result).
Proof.
  destruct (type record) as [t|] eqn:Ht.
  - destruct (route_cases t) as [Hr|(control & method & Hr)].
    + exists w, None. now apply (createGeometry_unrouted controls record t).
    + rewrite (createGeometry_listed controls record t control method w Ht Hr).
      destruct (call_load controls control method record w) as [w' [v|e]]; eauto.
  - exists w, None. unfold createGeometry_, try_catch. rewrite Ht. reflexivity.
Qed.

(** X12. A load that fails is logged and skipped, and what it did before
    failing stays: when the control is registered but lacks the load method,
    the TypeError message goes to [me.debug] and [undefined] is returned;
    when the load method throws an error, the state it left is kept, the
    message carrying that error's text, line and file goes to [me.debug],
    and [undefined] is returned. *)
Theorem createGeometry_failed_load controls record t control method
  (c : gmap string (geo_record D -> js (world H) V)) w :
  type record = Some t ->
  route t = Some (control, method) ->
  controls !! control = Some c ->
  (c !! method = None ->
   createGeometry_ Options_debug controls record w
   = (after_debug Options_debug
        (failure_message (TypeError "load method is not a function")) w,
      Normal None)) /\
  (forall (load : geo_record D -> js (world H) V) w1 e,
     c !! method = Some load ->
     load record w = (w1, Throw e) ->
     createGeometry_ Options_debug controls record w
     = (after_debug Options_debug (failure_message e) w1, Normal None) /\
     host (fst (createGeometry_ Options_debug controls record w)) = host w1).
Proof.
  intros Ht Hr Hc. split.
  - intros Hm. rewrite (createGeometry_listed controls record t control method w Ht Hr).
    unfold call_load. rewrite Hc. cbv beta iota. rewrite Hm. reflexivity.
  - intros load w1 e Hm Hload.
    assert (E : createGeometry_ Options_debug controls record w
                = (after_debug Options_debug (failure_message e) w1, Normal None)).
    { rewrite (createGeometry_listed controls record t control method w Ht Hr).
      unfold call_load. rewrite Hc. cbv beta iota. rewrite Hm, Hload. reflexivity. }
    split; [exact E|]. rewrite E. reflexivity.
Qed.

Lemma call_load_insert_ne controls n (ms : gmap string (geo_record D -> js (world H) V))
  control method record w :
  n <> control ->
  call_load (<[n := ms]> controls) control method record w
  = call_load controls control method record w.
Proof. intros Hne. unfold call_load. now rewrite lookup_insert_ne. Qed.

Lemma route_names t control method :
  route t = Some (control, method) ->
  control = "markerControl" \/ control = "polylineControl" \/ control = "polygonControl".
Proof.
  unfold route. destruct (String.eqb t "point"); [intros [= <- <-]; tauto|].
  destruct (String.eqb t "line"); [intros [= <- <-]; tauto|].
  destruct (String.eqb t "poly"); [intros [= <- <-]; tauto|]. discriminate.
Qed.

(** X13. The dispatch goes by three fixed control names.  A control added
    under any other name is never used: [createGeometry_] behaves exactly as
    before for every record.  And adding a second control under a name
    replaces the first: the dispatch is as if only the second had been
    added. *)
Theorem addControl_dispatch_by_fixed_names controls (c1 c2 : control H D V) record w :
  (name c1 <> "markerControl" -> name c1 <> "polylineControl" ->
   name c1 <> "polygonControl" ->
   createGeometry_ Options_debug (addControl c1 controls) record w
   = createGeometry_ Options_debug controls record w) /\
  (name c1 = name c2 ->
   createGeometry_ Options_debug (addControl c2 (addControl c1 controls)) record w
   = createGeometry_ Options_debug (addControl c2 controls) record w).
Proof.
  split.
  - intros Hm Hl Hy. destruct (type record) as [t|] eqn:Ht.
    + destruct (route_cases t) as [Hr|(control & method & Hr)].
      * rewrite !(createGeometry_unrouted _ record t w Ht Hr). reflexivity.
      * rewrite !(createGeometry_listed _ record t control method w Ht Hr).
        unfold addControl. rewrite call_load_insert_ne; [reflexivity|].
        destruct (route_names t control method Hr) as [->|[->| ->]]; assumption.
    + unfold createGeometry_, try_catch. rewrite Ht. reflexivity.
  - intros Hn. unfold addControl. rewrite Hn, insert_insert_eq. reflexivity.
Qed.

End DispatchMore.

(** A marker control whose load method records the title and then throws. *)
Module DispatchExample2.
Import Dispatch.

Definition broken : js_error :=
  {| err_text := "Error: bad coordinates"; err_lineNumber := "12";
     err_fileName := "markercontrol.js" |}.

Definition loadMarkers_failing : geo_record string -> js (world (list string)) string :=
  fun record =>
    modify (fun w => {| glog := glog w; debug_ := debug_ w;
                        host := (host w ++ [data record])%list |}) ;;;
    throw broken.

Definition failing_controls
  : gmap string (gmap string (geo_record string -> js (world (list string)) string)) :=
  {[ "markerControl" := {[ "loadMarkers" := loadMarkers_failing ]} ]}.

End DispatchExample2.

Lemma createGeometry_failed_load_witness :
  Dispatch.type DispatchExample.well = Some "point" /\
  Dispatch.route "point" = Some ("markerControl", "loadMarkers") /\
  DispatchExample2.failing_controls !! "markerControl"
  = Some {[ "loadMarkers" := DispatchExample2.loadMarkers_failing ]} /\
  Dispatch.createGeometry_ true DispatchExample2.failing_controls DispatchExample.well
    DispatchExample.fresh
  = ({| Dispatch.glog := [Dispatch.failure_message DispatchExample2.broken];
        Dispatch.debug_ := Some true;
        Dispatch.host := ["well"] |}, Normal None).
Proof.
  split; [reflexivity|]. split; [reflexivity|]. split; [reflexivity|].
  exact (proj1 (proj2 (createGeometry_failed_load true DispatchExample2.failing_controls
           DispatchExample.well "point" "markerControl" "loadMarkers"
           {[ "loadMarkers" := DispatchExample2.loadMarkers_failing ]}
           DispatchExample.fresh eq_refl eq_refl eq_refl)
           DispatchExample2.loadMarkers_failing
           {| Dispatch.glog := []; Dispatch.debug_ := None; Dispatch.host := ["well"] |}
           DispatchExample2.broken eq_refl eq_refl)).
Defined.

(* ===================================================================== *)
(** ** serialize (lines 449-466) *)
(* ===================================================================== *)

Module Serialize.
Import Persist.
Section Serialize.

(** [number_to_string]: the string a number becomes under [+]. *)
Context {num : Type} (number_to_string : num -> string).

(** [typeof(v) === "object"] on the values at hand. *)
Definition is_object (v : val num) : bool :=
  match v with
  | VArr _ | VObj _ => true
  | _ => false
  end.

(** The string a primitive becomes in [prop + "=" + v]. *)
Definition to_string (v : val num) : string :=
  match v with
  | VUndefined => "undefined"
  | VNum n => number_to_string n
  | VStr s => s
  | VArr _ | VObj _ => ""
  end.

(** The characters of a string primitive as [for ... in] enumerates them:
    the indices from [i] on, each character a one-character string. *)
Fixpoint characters (i : nat) (s : string) : list string :=
  match s with
  | EmptyString => []
  | String c rest =>
      (pretty i ++ "=" ++ String c EmptyString) :: characters (S i) rest
  end.

(** [traverseObject]: the parameters pushed for [myObj], in order.  An
    object contributes its members, an array its elements under their
    indices, a string its characters; an object-valued member is traversed
    in place and its own name is not used. *)
Fixpoint traverseObject (myObj : val num) : list string :=
  match myObj with
  | VObj fields =>
      (fix members (fs : list (string * val num)) : list string :=
         match fs with
         | [] => []
         | (prop, v) :: rest =>
             ((if is_object v then traverseObject v
               else [(prop ++ "=" ++ to_string v)%string]) ++ members rest)%list
         end) fields
  | VArr items =>
      (fix elements (i : nat) (vs : list (val num)) : list string :=
         match vs with
         | [] => []
         | v :: rest =>
             ((if is_object v then traverseObject v
               else [(pretty i ++ "=" ++ to_string v)%string]) ++ elements (S i) rest)%list
         end) 0 items
  | VStr s => characters 0 s
  | VNum _ | VUndefined => []
  end.

(** [GeometryControls.prototype.serialize]: [params.join("&")] *)
Definition serialize (obj : val num) : string :=
  String.concat "&" (traverseObject obj).

(** One member of an object, as [traverseObject] treats it. *)
Definition member (p : string * val num) : list string :=
  if is_object p.2 then traverseObject p.2 else [p.1 ++ "=" ++ to_string p.2].

End Serialize.
End Serialize.

Section SerializeFacts.
Import Persist Serialize.
Context {num : Type} (number_to_string : num -> string).
Implicit Types (fields : list (string * val num)).

Lemma string_app_assoc (a b c : string) : ((a ++ b) ++ c = a ++ b ++ c)%string.
Proof.
  induction a as [|x a IH]; [reflexivity|].
  change (String x ((a ++ b) ++ c) = String x (a ++ b ++ c))%string.
  now rewrite IH.
Qed.

(** An object's parameters are those of its members, one after the other. *)
Lemma traverseObject_members fields :
  traverseObject number_to_string (VObj fields)
  = flat_map (member number_to_string) fields.
Proof.
  induction fields as [|[prop v] fields IH]; [reflexivity|].
  simpl in *. unfold member at 1. simpl. now rewrite IH.
Qed.


(** X15. Nesting is flattened away: the name of an object-valued member
    never reaches the output, so an object serializes exactly like the one
    in which that member is replaced by the nested object's own members. *)
Theorem serialize_drops_nested_name (before after inner : list (string * val num))
  (prop : string) :
  serialize number_to_string (VObj (before ++ (prop, VObj inner) :: after))
  = serialize number_to_string (VObj (before ++ inner ++ after)).
Proof.
  unfold serialize. rewrite !traverseObject_members. f_equal.
  rewrite !flat_map_app. f_equal. simpl. f_equal.
  unfold member at 1. simpl is_object. cbv iota. cbn [snd].
  apply traverseObject_members.
Qed.

(** X16. Nothing is escaped: a string value that contains [&] and [=]
    yields the same output as two separate members, so the output does not
    determine the object. *)
Theorem serialize_does_not_escape (k1 v1 k2 v2 : string) :
  serialize number_to_string (VObj [(k1, VStr (v1 ++ "&" ++ k2 ++ "=" ++ v2))])
  = serialize number_to_string (VObj [(k1, VStr v1); (k2, VStr v2)]).
Proof.
  unfold serialize. simpl. rewrite !string_app_assoc. reflexivity.
Qed.

End SerializeFacts.


(** Arrays contribute their indices, nested names vanish, and a string
    handed in directly is enumerated character by character. *)
Example serialize_runs :
  Serialize.serialize (@pretty Z _)
    (Persist.VObj [("area", Persist.VObj [("name", Persist.VStr "Lot A");
                                          ("at", Persist.VArr [Persist.VNum 2; Persist.VNum 1]%Z)]);
                   ("_method", Persist.VStr "PUT")])
  = "name=Lot A&0=2&1=1&_method=PUT" /\
  Serialize.serialize (@pretty Z _) (Persist.VStr "ab") = "0=a&1=b" /\
  Serialize.serialize (@pretty Z _) (Persist.VNum 7%Z) = "".
Proof. repeat split. Qed.

(* ===================================================================== *)
(** ** getAbsolutePosition (lines 412-415) *)
(* ===================================================================== *)

Module Position.

(** A DOM element as the loop reads it: its two offsets (whole pixels) and
    its [offsetParent], [None] for [null]. *)
#[warnings="-register-all"]
Inductive element : Type :=
| Element (offsetLeft offsetTop : Z) (offsetParent : option element).

(** The [for] loop from an element on, with the sums so far:
    [for (; el !== null; lx += el.offsetLeft, ly += el.offsetTop,
    el = el.offsetParent) {}] *)
Fixpoint climb (el : element) (lx ly : Z) : Z * Z :=
  match el with
  | Element offsetLeft offsetTop offsetParent =>
      match offsetParent with
      | Some parent => climb parent (lx + offsetLeft) (ly + offsetTop)
      | None => (lx + offsetLeft, ly + offsetTop)%Z
      end
  end.

(** [GeometryControls.prototype.getAbsolutePosition]: the pair [{x, y}]. *)
Definition getAbsolutePosition (el : option element) : Z * Z :=
  match el with
  | Some e => climb e 0 0
  | None => (0, 0)%Z
  end.

(** The chain of an element: itself, then its offset parents up to the top. *)
Fixpoint chain (el : element) : list (Z * Z) :=
  match el with
  | Element offsetLeft offsetTop offsetParent =>
      (offsetLeft, offsetTop) ::
      match offsetParent with
      | Some parent => chain parent
      | None => []
      end
  end.

End Position.

Section PositionFacts.
Import Position.
Local Open Scope Z_scope.

Lemma climb_shift : forall (el : element) (lx ly : Z),
  climb el lx ly = (lx + fst (climb el 0 0), ly + snd (climb el 0 0)).
Proof.
  fix IH 1. intros [l t [parent|]] lx ly; simpl.
  - rewrite (IH parent (lx + l) (ly + t)), (IH parent (0 + l) (0 + t)).
    simpl. f_equal; lia.
  - f_equal; lia.
Qed.

Lemma climb_chain : forall (el : element),
  climb el 0 0
  = (foldr Z.add 0 (map fst (chain el)), foldr Z.add 0 (map snd (chain el))).
Proof.
  fix IH 1. intros [l t [parent|]]; simpl.
  - rewrite climb_shift, (IH parent). simpl. reflexivity.
  - f_equal; lia.
Qed.

(** X17. The absolute position is the element's own offset added to the
    absolute position of its offset parent, hence the sum of the offsets
    along the whole chain; for [null] it is (0, 0). *)
Theorem getAbsolutePosition_adds_up (l t : Z) (parent : option element) :
  getAbsolutePosition None = (0, 0) /\
  getAbsolutePosition (Some (Element l t parent))
  = (l + fst (getAbsolutePosition parent), t + snd (getAbsolutePosition parent)) /\
  getAbsolutePosition (Some (Element l t parent))
  = (foldr Z.add 0 (map fst (chain (Element l t parent))),
     foldr Z.add 0 (map snd (chain (Element l t parent)))).
Proof.
  split; [reflexivity|]. split; [|apply climb_chain].
  destruct parent as [q|]; simpl; [|f_equal; lia].
  rewrite climb_shift. reflexivity.
Qed.

End PositionFacts.

(* ===================================================================== *)
(** ** The constructor's options, runInitFunctions_ and getDefaultPosition
       (lines 46-115) *)
(* ===================================================================== *)

Module Construct.

(** Option values: numbers (anchors and pixel offsets), strings, booleans
    and arrays. *)
#[warnings="-register-all"]
Inductive optval : Type :=
| ONum (n : Z)
| OStr (s : string)
| OBool (b : bool)
| OArr (items : list optval).


(** Truthiness of a member that may be absent. *)
Definition truthy (v : option optval) : bool :=
  match v with
  | Some (OBool b) => b
  | Some (ONum n) => negb (n =? 0)%Z
  | Some (OStr s) => negb (String.eqb s "")
  | Some (OArr _) => true
  | None => false
  end.

Section Constructor.

(** The map API's anchor constant. *)
Context (G_ANCHOR_TOP_RIGHT : optval).

(** [me.Options] as the constructor first sets it (lines 50-60), with the
    member names as they are spelled there. *)
Definition defaults : gmap string optval :=
  {[ "controlPostitionFloat" := G_ANCHOR_TOP_RIGHT;
     "controlPosition" := OArr [ONum 0; ONum 0];
     "buttonWidth" := OStr "33";
     "buttonHeight" := OStr "33";
     "buttonBorder" := OStr "0";
     "buttonCursor" := OStr "pointer";
     "autoSave" := OBool true;
     "cssId" := OStr "emmc-geom";
     "debug" := OBool true ]}.

(** Lines 63-69: [for (var o in opt_opts) me.Options[o] = opt_opts[o];]
    ([None]: the constructor was called without options). *)
Definition Options_of (opt_opts : option (gmap string optval)) : gmap string optval :=
  match opt_opts with
  | Some given => foldr (fun '(o, v) Options => <[o := v]> Options) defaults
                        (map_to_list given)
  | None => defaults
  end.



(** [runInitFunctions_]: [if (me.Options.autoSave) me.addAutoSaveAspect();] *)
Definition runInitFunctions_ (Options : gmap string optval) (s : AutoSave.store)
  : AutoSave.store :=
  if truthy (Options !! "autoSave") then AutoSave.addAutoSaveAspect s else s.

(** The constructor on the function-valued members: [me.autoSaveListener =
    null] (line 79), then [me.runInitFunctions_()] (line 82).  [s] holds
    what the instance inherits when it is created. *)
Definition construct (opt_opts : option (gmap string optval)) (s : AutoSave.store)
  : gmap string optval * AutoSave.store :=
  let Options := Options_of opt_opts in
  (Options, runInitFunctions_ Options (AutoSave.set_me (delete "autoSaveListener") s)).

End Constructor.
End Construct.

Section ConstructFacts.
Import Construct.
Context (G_ANCHOR_TOP_RIGHT : optval).

Lemma foldr_insert_union (l : list (string * optval)) (d : gmap string optval) :
  foldr (fun '(o, v) Options => <[o := v]> Options) d l = list_to_map l ∪ d.
Proof.
  induction l as [|[k v] l IH]; simpl.
  - now rewrite (left_id_L ∅ (∪)).
  - rewrite IH. now rewrite insert_union_l.
Qed.

Lemma Options_of_given (given : gmap string optval) :
  Options_of G_ANCHOR_TOP_RIGHT (Some given) = given ∪ defaults G_ANCHOR_TOP_RIGHT.
Proof.
  unfold Options_of. rewrite foldr_insert_union. now rewrite list_to_map_to_list.
Qed.

Lemma Options_of_lookup (opt_opts : option (gmap string optval)) (k : string) :
  Options_of G_ANCHOR_TOP_RIGHT opt_opts !! k
  = match opt_opts ≫= (fun given => given !! k) with
    | Some v => Some v
    | None => defaults G_ANCHOR_TOP_RIGHT !! k
    end.
Proof.
  destruct opt_opts as [given|]; [|reflexivity].
  rewrite Options_of_given. simpl. rewrite lookup_union.
  destruct (given !! k) as [v|] eqn:Hk; simpl.
  - destruct (defaults G_ANCHOR_TOP_RIGHT !! k); reflexivity.
  - destruct (defaults G_ANCHOR_TOP_RIGHT !! k); reflexivity.
Qed.

(** X18. The constructor's options: every member the caller gives, known
    or not, ends up in [me.Options] with the caller's value, and every
    default the caller does not name stays; without an options argument the
    defaults stand as they are. *)
Theorem Options_override_defaults (given : gmap string optval) (k : string) :
  Options_of G_ANCHOR_TOP_RIGHT None = defaults G_ANCHOR_TOP_RIGHT /\
  Options_of G_ANCHOR_TOP_RIGHT (Some given) = given ∪ defaults G_ANCHOR_TOP_RIGHT /\
  (forall v, given !! k = Some v ->
             Options_of G_ANCHOR_TOP_RIGHT (Some given) !! k = Some v) /\
  (given !! k = None ->
   Options_of G_ANCHOR_TOP_RIGHT (Some given) !! k = defaults G_ANCHOR_TOP_RIGHT !! k).
Proof.
  split; [reflexivity|]. split; [apply Options_of_given|]. split.
  - intros v Hk. rewrite Options_of_lookup. simpl. now rewrite Hk.
  - intros Hk. rewrite Options_of_lookup. simpl. now rewrite Hk.
Qed.


Lemma addAutoSaveAspect_me (s : AutoSave.store) :
  AutoSave.me (AutoSave.addAutoSaveAspect s) !! "bindInfoWindow"
  = Some (AutoSave.WrapBefore AutoSave.BindAdvice (AutoSave.me s !! "bindInfoWindow")) /\
  (forall k, k <> "bindInfoWindow" ->
     AutoSave.me (AutoSave.addAutoSaveAspect s) !! k = AutoSave.me s !! k) /\
  AutoSave.commitStyling (AutoSave.addAutoSaveAspect s) = AutoSave.commitStyling s /\
  AutoSave.info (AutoSave.addAutoSaveAspect s) = AutoSave.info s /\
  AutoSave.out (AutoSave.addAutoSaveAspect s) = AutoSave.out s.
Proof.
  unfold AutoSave.addAutoSaveAspect, AutoSave.set_me, Aop.process_. cbn.
  split; [apply attach_lookup|]. split; [|repeat split].
  intros k Hk. apply attach_lookup_ne. congruence.
Qed.

(** X20. Whether the instance autosaves is settled in the constructor: with
    [autoSave] absent from the given options or truthy there, the member
    [bindInfoWindow] the instance has at that moment (possibly none) is
    wrapped by the binder advice; with a falsy [autoSave] it is left as it
    is.  Either way [autoSaveListener] starts out empty. *)
Theorem construct_installs_autosave (opt_opts : option (gmap string optval))
  (s : AutoSave.store) :
  let autoSave := match opt_opts ≫= (fun given => given !! "autoSave") with
                  | Some v => truthy (Some v)
                  | None => true
                  end in
  let s' := snd (construct G_ANCHOR_TOP_RIGHT opt_opts s) in
  AutoSave.me s' !! "bindInfoWindow"
  = (if autoSave
     then Some (AutoSave.WrapBefore AutoSave.BindAdvice (AutoSave.me s !! "bindInfoWindow"))
     else AutoSave.me s !! "bindInfoWindow") /\
  AutoSave.me s' !! "autoSaveListener" = None /\
  AutoSave.commitStyling s' = AutoSave.commitStyling s /\
  AutoSave.out s' = AutoSave.out s.
Proof.
  cbv zeta. unfold construct, runInitFunctions_. cbn [snd].
  rewrite Options_of_lookup.
  assert (Hd : defaults G_ANCHOR_TOP_RIGHT !! "autoSave" = Some (OBool true))
    by reflexivity.
  rewrite Hd.
  set (s0 := AutoSave.set_me (delete "autoSaveListener") s).
  assert (Hb0 : AutoSave.me s0 !! "bindInfoWindow" = AutoSave.me s !! "bindInfoWindow").
  { unfold s0. cbn. now rewrite lookup_delete_ne. }
  assert (Hl0 : AutoSave.me s0 !! "autoSaveListener" = None).
  { unfold s0. cbn. apply lookup_delete_eq. }
  destruct (addAutoSaveAspect_me s0) as (Hb & Hother & Hcs & _ & Hout).
  assert (Hon : AutoSave.me (AutoSave.addAutoSaveAspect s0) !! "bindInfoWindow"
                = Some (AutoSave.WrapBefore AutoSave.BindAdvice
                          (AutoSave.me s !! "bindInfoWindow")) /\
                AutoSave.me (AutoSave.addAutoSaveAspect s0) !! "autoSaveListener" = None /\
                AutoSave.commitStyling (AutoSave.addAutoSaveAspect s0)
                = AutoSave.commitStyling s /\
                AutoSave.out (AutoSave.addAutoSaveAspect s0) = AutoSave.out s).
  { rewrite Hb, Hb0, Hother by discriminate. rewrite Hl0, Hcs, Hout. repeat split. }
  destruct (opt_opts ≫= (fun given => given !! "autoSave")) as [v|].
  - destruct (truthy (Some v)); [exact Hon|].
    rewrite Hb0, Hl0. repeat split.
  - exact Hon.
Qed.

End ConstructFacts.

(* ===================================================================== *)
(** ** Further properties of the autosave aspect *)
(* ===================================================================== *)

Section AutoSaveMore.
Import AutoSave.

(** What a bind leaves, whatever [geomInfo.commitStyling] was. *)
Definition rebound (g : nat) (binder : string) (s : store) : store :=
  emit (Called binder Me [Ref g])
    {| me := Aop.attach_ (assign "autoSaveListener" (commitStyling s !! g) (me s))
               "autoSaveListener" (WrapAfter (SaveAdvice g));
       commitStyling := <[g := Forward]> (commitStyling s);
       info := info s;
       out := out s |}.

Lemma bindInfoWindow_run_any depth s g binder :
  2 <= depth ->
  me s !! "bindInfoWindow" = Some (WrapBefore BindAdvice (Some (Host binder))) ->
  call_me depth "bindInfoWindow" [Ref g] s = (rebound g binder s, Normal Undefined).
Proof.
  intros Hd Hb. destruct depth as [|[|d]]; [lia|lia|].
  unfold call_me. rewrite Hb. cbn [call fmap option_fmap option_map].
  unfold Aop.link_before, bind_session, bind, modify, set_me, set_commitStyling.
  cbn [me commitStyling info out]. reflexivity.
Qed.

Lemma rebound_listener g binder s :
  me (rebound g binder s) !! "autoSaveListener"
  = Some (WrapAfter (SaveAdvice g) (commitStyling s !! g)) /\
  commitStyling (rebound g binder s) !! g = Some Forward /\
  me (rebound g binder s) !! "bindInfoWindow" = me s !! "bindInfoWindow".
Proof.
  unfold rebound. cbn. split; [|split].
  - rewrite attach_lookup. f_equal. f_equal.
    unfold assign. destruct (commitStyling s !! g).
    + apply lookup_insert_eq.
    + apply lookup_delete_eq.
  - apply lookup_insert_eq.
  - rewrite attach_lookup_ne by discriminate.
    unfold assign. destruct (commitStyling s !! g).
    + now rewrite lookup_insert_ne.
    + now rewrite lookup_delete_ne.
Qed.

(** The forwarder chasing a listener that wraps the forwarder itself. *)
Lemma forward_loop g' s :
  me s !! "autoSaveListener" = Some (WrapAfter (SaveAdvice g') (Some Forward)) ->
  forall depth this args,
    call depth Forward this args s = (s, Throw RangeError) /\
    call (S depth) Forward this args s = (s, Throw RangeError).
Proof.
  intros Hl. induction depth as [|d IH]; intros this args.
  - split; [reflexivity|]. cbn [call]. rewrite Hl. reflexivity.
  - split; [apply IH|]. cbn [call]. rewrite Hl.
    cbn [call fmap option_fmap option_map].
    unfold Aop.link_after, Aop.apply_, bind.
    destruct (IH Me []) as [E _]. rewrite E. reflexivity.
Qed.

(** X21. The aspect installed on an instance that has no [bindInfoWindow]:
    the member exists from then on, but every call of it throws a TypeError
    before the advice runs; no session is bound and the store is left
    untouched. *)
Theorem aspect_without_binder depth (s : store) (args : list value) :
  1 <= depth ->
  me s !! "bindInfoWindow" = None ->
  let s' := addAutoSaveAspect s in
  is_Some (me s' !! "bindInfoWindow") /\
  call_me depth "bindInfoWindow" args s' = (s', Throw (TypeError "orig is undefined")).
Proof.
  intros Hd Hb s'. destruct (addAutoSaveAspect_me s) as (Hw & _).
  fold s' in Hw. rewrite Hb in Hw. split; [rewrite Hw; eauto|].
  unfold call_me. rewrite Hw. destruct depth as [|d]; [lia|]. reflexivity.
Qed.

(** X22. Binding the same [geomInfo] object twice: the second bind takes
    the forwarder installed by the first for the session's callback, so the
    listener wraps the forwarder that calls the listener.  From then on a
    commit of that session throws a RangeError whatever stack the engine
    allows; the session's callback is not called and nothing is saved (the
    store is as the second bind left it). *)
Theorem rebinding_a_session_breaks_commit depth_bind depth s g binder c :
  2 <= depth_bind ->
  me s !! "bindInfoWindow" = Some (WrapBefore BindAdvice (Some (Host binder))) ->
  commitStyling s !! g = Some (Host c) ->
  exists s1 s2,
    call_me depth_bind "bindInfoWindow" [Ref g] s = (s1, Normal Undefined) /\
    call_me depth_bind "bindInfoWindow" [Ref g] s1 = (s2, Normal Undefined) /\
    me s2 !! "autoSaveListener" = Some (WrapAfter (SaveAdvice g) (Some Forward)) /\
    commit depth g s2 = (s2, Throw RangeError).
Proof.
  intros Hd Hb Hc.
  exists (rebound g binder s), (rebound g binder (rebound g binder s)).
  destruct (rebound_listener g binder s) as (Hl1 & Hf1 & Hb1).
  destruct (rebound_listener g binder (rebound g binder s)) as (Hl2 & Hf2 & Hb2).
  rewrite Hf1 in Hl2.
  split; [now apply bindInfoWindow_run_any|].
  split; [apply bindInfoWindow_run_any; [assumption|congruence]|].
  split; [exact Hl2|].
  unfold commit. rewrite Hf2. apply (forward_loop g _ Hl2 depth).
Qed.

(** X23. Binding a [geomInfo] that has no [commitStyling]: the bind itself
    succeeds and gives the object a [commitStyling], but the listener then
    wraps an undefined function, so every commit throws a TypeError; nothing
    is called and nothing is saved. *)
Theorem binding_without_callback depth s g binder :
  3 <= depth ->
  me s !! "bindInfoWindow" = Some (WrapBefore BindAdvice (Some (Host binder))) ->
  commitStyling s !! g = None ->
  exists s1,
    call_me depth "bindInfoWindow" [Ref g] s = (s1, Normal Undefined) /\
    commitStyling s1 !! g = Some Forward /\
    commit depth g s1 = (s1, Throw (TypeError "orig is undefined")).
Proof.
  intros Hd Hb Hc. exists (rebound g binder s).
  destruct (rebound_listener g binder s) as (Hl & Hf & _). rewrite Hc in Hl.
  split; [apply bindInfoWindow_run_any; [lia|assumption]|].
  split; [exact Hf|].
  unfold commit. rewrite Hf. destruct depth as [|[|[|d]]]; [lia|lia|lia|].
  cbn [call]. rewrite Hl. reflexivity.
Qed.

End AutoSaveMore.

(** An instance created where nothing defines [bindInfoWindow]. *)
Module AutoSaveExample2.
Import AutoSave.

Definition bare : store :=
  {| me := ∅; commitStyling := {[ 1 := Host "commitA" ]}; info := ∅; out := [] |}.

End AutoSaveExample2.

Lemma aspect_without_binder_witness :
  1 <= 5 /\
  AutoSave.me AutoSaveExample2.bare !! "bindInfoWindow" = None /\
  snd (AutoSave.call_me 5 "bindInfoWindow" [AutoSave.Ref 1]
         (AutoSave.addAutoSaveAspect AutoSaveExample2.bare))
  = Throw (TypeError "orig is undefined").
Proof.
  assert (Hd : 1 <= 5) by lia.
  assert (Hb : AutoSave.me AutoSaveExample2.bare !! "bindInfoWindow" = None)
    by reflexivity.
  split; [exact Hd|]. split; [exact Hb|].
  rewrite (proj2 (aspect_without_binder 5 AutoSaveExample2.bare [AutoSave.Ref 1] Hd Hb)).
  reflexivity.
Defined.

Lemma rebinding_a_session_breaks_commit_witness :
  2 <= 10 /\
  AutoSave.me AutoSaveExample.constructed !! "bindInfoWindow"
  = Some (AutoSave.WrapBefore AutoSave.BindAdvice (Some (AutoSave.Host "bindInfoWindow"))) /\
  AutoSave.commitStyling AutoSaveExample.constructed !! 1 = Some (AutoSave.Host "commitA") /\
  exists s1 s2,
    AutoSave.call_me 10 "bindInfoWindow" [AutoSave.Ref 1] AutoSaveExample.constructed
    = (s1, Normal AutoSave.Undefined) /\
    AutoSave.call_me 10 "bindInfoWindow" [AutoSave.Ref 1] s1 = (s2, Normal AutoSave.Undefined) /\
    AutoSave.me s2 !! "autoSaveListener"
    = Some (AutoSave.WrapAfter (AutoSave.SaveAdvice 1) (Some AutoSave.Forward)) /\
    AutoSave.commit 1000 1 s2 = (s2, Throw AutoSave.RangeError).
Proof.
  assert (Hd : 2 <= 10) by lia.
  split; [exact Hd|]. split; [reflexivity|]. split; [reflexivity|].
  exact (rebinding_a_session_breaks_commit 10 1000 AutoSaveExample.constructed 1
           "bindInfoWindow" "commitA" Hd eq_refl eq_refl).
Defined.

Lemma binding_without_callback_witness :
  3 <= 10 /\
  AutoSave.me AutoSaveExample.constructed !! "bindInfoWindow"
  = Some (AutoSave.WrapBefore AutoSave.BindAdvice (Some (AutoSave.Host "bindInfoWindow"))) /\
  AutoSave.commitStyling AutoSaveExample.constructed !! 3 = None /\
  exists s1,
    AutoSave.call_me 10 "bindInfoWindow" [AutoSave.Ref 3] AutoSaveExample.constructed
    = (s1, Normal AutoSave.Undefined) /\
    AutoSave.commitStyling s1 !! 3 = Some AutoSave.Forward /\
    AutoSave.commit 10 3 s1 = (s1, Throw (TypeError "orig is undefined")).
Proof.
  assert (Hd : 3 <= 10) by lia.
  split; [exact Hd|]. split; [reflexivity|]. split; [reflexivity|].
  exact (binding_without_callback 10 AutoSaveExample.constructed 3 "bindInfoWindow"
           Hd eq_refl eq_refl).
Defined.

(* ===================================================================== *)
(** ** Further properties of saveData and of the click listener *)
(* ===================================================================== *)

Section PersistMore.
Import Persist.
Context {num : Type} (number_to_string : num -> string).
Context {W : Type} (emit : effect num -> W -> W).

(** X24. [saveData] with an index past the end of the storage (an empty
    storage included) throws a TypeError at the first read of the record:
    nothing is logged and no request is issued. *)
Theorem saveData_index_out_of_range (opts : SaveOpts num) (w : W) :
  length (storage (geomInfo opts)) <= index (geomInfo opts) ->
  saveData number_to_string emit opts w = (w, Throw (TypeError "record is undefined")).
Proof.
  intros Hlen. apply saveData_no_record. now apply lookup_ge_None.
Qed.

End PersistMore.

Lemma saveData_index_out_of_range_witness :
  length [PersistExample.lot_a] <= 1 /\
  Persist.saveData pretty PersistExample.record_effect
    {| Persist.allData := false;
       Persist.geomInfo := {| Persist.index := 1; Persist.storage := [PersistExample.lot_a] |} |}
    []
  = ([], Throw (TypeError "record is undefined")).
Proof.
  assert (Hlen : length [PersistExample.lot_a] <= 1) by (simpl; lia).
  split; [exact Hlen|].
  exact (saveData_index_out_of_range pretty PersistExample.record_effect
           {| Persist.allData := false;
              Persist.geomInfo := {| Persist.index := 1;
                                     Persist.storage := [PersistExample.lot_a] |} |}
           [] Hlen).
Defined.

Section ClickMore.
Import Toggle.
Context {H : Type}.
Implicit Types (w : world H) (funcs : list (string * stop_fn H)) (b : button).

(** X25. The click listener never lowers a button itself: on a pressed
    button it calls [toggleButtons(controlName)], which presses it again,
    and then the tool's stop function.  With a stop function that leaves the
    buttons alone the click completes and the button still shows its down
    image, every other button its up image. *)
Theorem click_leaves_lowering_to_the_tool funcs X (start : js (world H) unit)
  (stop : stop_fn H) w b :
  X <> "" ->
  buttons_ w !! X = Some b ->
  img_src b <> img_up_url (opts b) ->
  (forall n f, In (n, f) funcs -> n <> X -> keeps_buttons (f (Some false))) ->
  keeps_buttons (stop None) ->
  exists w',
    click funcs X start stop w = (w', Normal tt) /\
    buttons_ w' = <[X := pressed b]> (all_up (buttons_ w)) /\
    shows_down w' X /\
    (forall n, n <> X -> is_Some (buttons_ w' !! n) -> shows_up w' n).
Proof.
  intros Hne Hb Hdown Hothers Hstop. unfold click. rewrite Hb.
  apply String.eqb_neq in Hdown. rewrite Hdown.
  destruct (toggleButtons_named funcs X w b Hne Hb Hothers) as (w1 & E1 & B1).
  destruct (Hstop w1) as (w2 & E2 & B2).
  exists w2. split; [rewrite (bind_normal _ _ _ _ _ E1); exact E2|].
  assert (B : buttons_ w2 = <[X := pressed b]> (all_up (buttons_ w))) by congruence.
  split; [exact B|]. split.
  - exact (proj1 (pressed_alone _ _ _ _ B)).
  - intros n Hn [b' Hb']. exists b'. split; [exact Hb'|].
    rewrite B, lookup_insert_ne in Hb' by congruence.
    eapply all_up_lookup; eauto.
Qed.

End ClickMore.

Lemma click_leaves_lowering_to_the_tool_witness :
  let pressed_marker :=
    fst (Toggle.toggleButtons ToggleExample.spy_funcs (Some "markerControl")
           ToggleExample.spy_world) in
  Toggle.buttons_ pressed_marker !! "markerControl"
  = Some {| Toggle.opts := ToggleExample.marker_opts; Toggle.img_src := "marker_down.png" |} /\
  exists w',
    Toggle.click ToggleExample.spy_funcs "markerControl"
      (ToggleExample.spy_start "markerControl") (fun _ => ret tt) pressed_marker
    = (w', Normal tt) /\
    Toggle.shows_down w' "markerControl".
Proof.
  cbv zeta.
  assert (Hb : Toggle.buttons_
                 (fst (Toggle.toggleButtons ToggleExample.spy_funcs (Some "markerControl")
                         ToggleExample.spy_world)) !! "markerControl"
               = Some {| Toggle.opts := ToggleExample.marker_opts;
                         Toggle.img_src := "marker_down.png" |}) by reflexivity.
  split; [exact Hb|].
  destruct (click_leaves_lowering_to_the_tool ToggleExample.spy_funcs "markerControl"
              (ToggleExample.spy_start "markerControl") (fun _ => ret tt) _ _
              ltac:(discriminate) Hb ltac:(discriminate)
              (fun n f Hin _ => ToggleExample.spy_funcs_keep n f Hin)
              keeps_buttons_ret) as (w' & Hrun & _ & Hdown & _).
  exists w'. split; [exact Hrun|exact Hdown].
Defined.
